(** * niobot-uptime-kuma: the [KumaMonitor] push monitor

    A shallow embedding of [src/niobot/utils/uptime_kuma/monitor.py].

    Conventions of the embedding:
    - Latency samples and their average are binary64 floats, the kernel's
      primitive floats, with [sum], [/] and [round] as CPython computes
      them.  Timestamps and the interval, which the monitor only copies,
      compares and adds once, are rationals [Q].
    - A Python call either returns or raises: [Outcome].  Exceptions keep
      the one distinction the source relies on, namely whether they are
      instances of [Exception] (caught by [except Exception]) or only of
      [BaseException] (cancellation, keyboard interrupt).
    - The monitor object is a record that is threaded through every method;
      everything outside the object (event dispatch, the HTTP session, the
      clock, the asyncio task table, the log) lives in [World].
    - The collaborators that the source receives from outside (getters, the
      HTTP session, the host client, the clock, the sleep primitive) are the
      fields of [Env]. *)

From Stdlib Require Import String List ZArith QArith Qround Lia Bool Arith.
From Stdlib Require Import PrimFloat SpecFloat FloatOps.
Import ListNotations.
Local Open Scope string_scope.
Local Open Scope list_scope.
Local Open Scope Q_scope.

(** ** Python values *)

(** Exceptions a call can raise.  [CancelledError] and [KeyboardInterrupt]
    derive from [BaseException] only. *)
Inductive exn : Type :=
| ZeroDivisionError
| CancelledError
| KeyboardInterrupt
| OtherException (what : string).

(** [isinstance(e, Exception)]. *)
Definition is_Exception (e : exn) : bool :=
  match e with
  | ZeroDivisionError => true
  | CancelledError => false
  | KeyboardInterrupt => false
  | OtherException _ => true
  end.

Inductive Outcome (A : Type) : Type :=
| Ret (a : A)
| Raise (e : exn).
Arguments Ret {A} a.
Arguments Raise {A} e.

Definition returns {A} (o : Outcome A) : bool :=
  match o with Ret _ => true | Raise _ => false end.

(** ** Numbers *)

(** [float(z)] for an integer [z]: the nearest float, ties to even. *)
Definition float_of_Z (z : Z) : float :=
  SF2Prim (binary_normalize prec emax z 0 false).

(** [n / d] rounded to the nearest integer, ties to the even one, for a
    positive [d]. *)
Definition round_half_even_div (n d : Z) : Z :=
  let q := (n / d)%Z in
  let r := (n mod d)%Z in
  match (2 * r ?= d)%Z with
  | Lt => q
  | Gt => (q + 1)%Z
  | Eq => if Z.even q then q else (q + 1)%Z
  end.

(** [round(x, ndigits)] on a float, for the small non-negative [ndigits]
    the monitor uses.  Nan, the infinities and the zeros come back as they
    are.  A finite [x] is exactly [m * 2 ^ e]: it is rounded, exactly, to the
    nearest multiple of [10 ^ -ndigits], ties to the even one, and the float
    nearest to that decimal is the result, with the sign of [x] also when the
    decimal is zero; a decimal beyond the floats is an [OverflowError]. *)
Definition py_round (x : float) (ndigits : nat) : Outcome float :=
  match Prim2SF x with
  | S754_finite s m e =>
      let scale := (10 ^ Z.of_nat ndigits)%Z in
      let z := match e with
               | Zneg k => round_half_even_div (Zpos m * scale) (2 ^ Zpos k)
               | _ => (Zpos m * scale * 2 ^ e)%Z
               end in
      match z with
      | Zpos n =>
          match SFdiv prec emax (S754_finite s n 0)
                      (S754_finite false (Z.to_pos scale) 0) with
          | S754_infinity _ => Raise (OtherException "OverflowError")
          | r => Ret (SF2Prim r)
          end
      | _ => Ret (if s then PrimFloat.opp PrimFloat.zero else PrimFloat.zero)
      end
  | _ => Ret x
  end.

(** The builtin [sum] on floats: they are added one after the other, from
    the left, to a total that starts at zero.  (CPython does so up to 3.11;
    from 3.12 on it compensates the additions, which can change the last
    bits of the total.) *)
Definition py_sum (xs : list float) : float :=
  fold_left PrimFloat.add xs PrimFloat.zero.

(** ** Exact arithmetic, to compare with *)




(** ** [collections.deque(maxlen=n)] *)

Module Deque.

Record t : Type := mk { maxlen : nat; items : list float }.

Definition empty (n : nat) : t := mk n [].

(** [append]: push on the right, then drop the leftmost element if the
    deque has become longer than [maxlen]. *)
Definition append (d : t) (x : float) : t :=
  let xs := items d ++ [x] in
  if (maxlen d <? length xs)%nat then mk (maxlen d) (tl xs)
  else mk (maxlen d) xs.

Definition len (d : t) : nat := length (items d).

End Deque.

(** The last [n] elements of a list, in order. *)
Definition lastn {A} (n : nat) (l : list A) : list A :=
  skipn (length l - n) l.

(** ** The data model *)

(** [httpx.Response], as far as the monitor looks at it. *)
Record Response : Type := mkResponse { status_code : Z; text : string }.

(** The values of the query-parameter dict built by [push]. *)
Inductive ParamValue : Type :=
| PStr (s : string)
| PNone
| PFloat (x : float).

(** A [dict] with string keys, in insertion order. *)
Definition Params : Type := list (string * ParamValue).

Fixpoint dict_get (k : string) (d : Params) : option ParamValue :=
  match d with
  | [] => None
  | (k', v) :: d' => if String.eqb k k' then Some v else dict_get k d'
  end.

(** [d[k] = v]. *)
Fixpoint dict_set (k : string) (v : ParamValue) (d : Params) : Params :=
  match d with
  | [] => [(k, v)]
  | (k', v') :: d' =>
      if String.eqb k k' then (k, v) :: d' else (k', v') :: dict_set k v d'
  end.

(** A handle on an [asyncio.Task]: its index in the task table. *)
Definition TaskId : Type := nat.

(** The attributes of a [KumaMonitor] that hold data. *)
Record Attrs : Type := mkAttrs {
  name : string;
  push_url : string;
  __interval : Q;
  include_latency : bool;
  _last_push : option Q;
  _history : Deque.t;
  _task : option TaskId
}.

(** The monitor object: its data and its two getters, which receive the
    monitor.  A getter is a function of the monitor's data and may raise. *)
Record KumaMonitor : Type := mkMonitor {
  attrs : Attrs;
  status_getter : Attrs -> Outcome bool;
  msg_getter : Attrs -> Outcome (option string)
}.

(** [niobot.RoomMessageText], as far as the host's latency needs it. *)
Record RoomMessageText : Type := mkMessage {
  sender : string;
  body : string;
  server_timestamp : option Z
}.

(** ** The world outside the monitor *)

Inductive Arg : Type :=
| AMonitor (m : KumaMonitor)
| AResponse (r : Response)
| AError (e : exn).

Inductive LogMsg : Type :=
| PushingTo (url : string) (params : Params)
| PushedTo (url : string) (status : Z)
| SendingAutoPush (url : string).

(** What the monitor does to the outside, in the order it does it. *)
Inductive Event : Type :=
| AddEventListener (event : string)
| RemoveEventListener
| Dispatch (event : string) (args : list Arg)
| HttpGet (url : string) (params : Params)
| Sleep (seconds : Q)
| LogDebug (msg : LogMsg).

Inductive TaskState : Type := Running | Cancelled.

Record World : Type := mkWorld {
  trace : list Event;        (* oldest first *)
  http_calls : nat;          (* requests issued so far *)
  clock_reads : nat;         (* calls of [time.time] so far *)
  sleeps : nat;              (* calls of [asyncio.sleep] so far *)
  tasks : list TaskState     (* the event loop's tasks, by [TaskId] *)
}.

Definition world0 : World := mkWorld [] 0 0 0 [].

(** The collaborators.  The n-th request, clock reading and sleep are
    answered by the environment. *)
Record Env : Type := mkEnv {
  http_get : nat -> string -> Params -> Outcome Response;
  time_time : nat -> Q;
  asyncio_sleep : nat -> Q -> Outcome unit;
  client_latency : RoomMessageText -> Outcome float;
  httpx_URL : string -> Outcome (string * string)   (* netloc, path *)
}.

(** ** Methods as state transformers that may raise *)

Definition M (A : Type) : Type :=
  KumaMonitor -> World -> Outcome A * KumaMonitor * World.

Definition ret {A} (a : A) : M A := fun m w => (Ret a, m, w).

Definition raise {A} (e : exn) : M A := fun m w => (Raise e, m, w).

Definition bind {A B} (c : M A) (k : A -> M B) : M B :=
  fun m w =>
    match c m w with
    | (Ret a, m', w') => k a m' w'
    | (Raise e, m', w') => (Raise e, m', w')
    end.

Notation "x <- c ;; k" := (bind c (fun x => k))
  (at level 61, c at next level, right associativity).
Notation "c ;; k" := (bind c (fun _ => k))
  (at level 61, right associativity).

Definition lift {A} (o : Outcome A) : M A := fun m w => (o, m, w).

Definition self : M KumaMonitor := fun m w => (Ret m, m, w).

Definition emit (ev : Event) : M unit :=
  fun m w =>
    (Ret tt, m,
     mkWorld (trace w ++ [ev]) (http_calls w) (clock_reads w) (sleeps w)
             (tasks w)).

(** [try: body / except Exception as e: handler e]. *)
Definition try_except {A} (body : M A) (handler : exn -> M A) : M A :=
  fun m w =>
    match body m w with
    | (Ret a, m', w') => (Ret a, m', w')
    | (Raise e, m', w') =>
        if is_Exception e then handler e m' w' else (Raise e, m', w')
    end.

(** [try: body / finally: fin].  An exception of [fin] replaces the pending
    one; otherwise the pending one is raised again after [fin]. *)
Definition try_finally {A} (body : M A) (fin : M unit) : M A :=
  fun m w =>
    match body m w with
    | (r, m', w') =>
        match fin m' w' with
        | (Ret _, m'', w'') => (r, m'', w'')
        | (Raise e, m'', w'') => (Raise e, m'', w'')
        end
    end.

(** Attribute assignment. *)
Definition with_last_push (t : option Q) (a : Attrs) : Attrs :=
  mkAttrs (name a) (push_url a) (__interval a) (include_latency a) t
          (_history a) (_task a).

Definition with_history (h : Deque.t) (a : Attrs) : Attrs :=
  mkAttrs (name a) (push_url a) (__interval a) (include_latency a)
          (_last_push a) h (_task a).

Definition with_task (t : option TaskId) (a : Attrs) : Attrs :=
  mkAttrs (name a) (push_url a) (__interval a) (include_latency a)
          (_last_push a) (_history a) t.

Definition set_attrs (f : Attrs -> Attrs) : M unit :=
  fun m w => (Ret tt, mkMonitor (f (attrs m)) (status_getter m) (msg_getter m), w).

(** Truthiness of an optional string: [None] and the empty string are falsy. *)
Definition truthy (s : option string) : bool :=
  match s with
  | None => false
  | Some s' => negb (String.eqb s' "")
  end.

(** [x / n] for a float [x] and the length [n] of a container. *)
Definition py_div (x : float) (n : nat) : Outcome float :=
  if (n =? 0)%nat then Raise ZeroDivisionError
  else Ret (PrimFloat.div x (float_of_Z (Z.of_nat n))).

(** [KumaMonitor._status_getter] and [KumaMonitor._msg_getter]. *)
Definition _status_getter (_ : Attrs) : Outcome bool := Ret true.
Definition _msg_getter (_ : Attrs) : Outcome (option string) := Ret (Some "OK").

(** The properties. *)
Definition average_latency (a : Attrs) : Outcome float :=
  match py_div (py_sum (Deque.items (_history a))) (Deque.len (_history a)) with
  | Ret q => py_round q 2
  | Raise e => Raise e
  end.

Definition last_push (a : Attrs) : option Q := _last_push a.

Definition interval (a : Attrs) : Q := __interval a.

Definition next_push (a : Attrs) : option Q :=
  match last_push a with
  | None => None
  | Some t => Some (t + interval a)
  end.

(** Calls on the event loop and on the host client. *)
(** [asyncio.create_task]: it needs a running event loop in the thread that
    calls it, and raises [RuntimeError] when there is none. *)
Definition create_task (running : bool) : M TaskId :=
  fun m w =>
    if running
    then (Ret (length (tasks w)), m,
          mkWorld (trace w) (http_calls w) (clock_reads w) (sleeps w)
                  (tasks w ++ [Running]))
    else (Raise (OtherException "RuntimeError"), m, w).

Fixpoint cancel_nth (t : TaskId) (ts : list TaskState) : list TaskState :=
  match ts, t with
  | [], _ => []
  | _ :: ts', O => Cancelled :: ts'
  | s :: ts', S t' => s :: cancel_nth t' ts'
  end.

Definition cancel (t : TaskId) : M unit :=
  fun m w =>
    (Ret tt, m,
     mkWorld (trace w) (http_calls w) (clock_reads w) (sleeps w)
             (cancel_nth t (tasks w))).

Definition dispatch (event : string) (args : list Arg) : M unit :=
  emit (Dispatch event args).

Definition log_debug (msg : LogMsg) : M unit := emit (LogDebug msg).

Section Monitor.

Variable env : Env.

Definition get (url : string) (params : Params) : M Response :=
  fun m w =>
    (http_get env (http_calls w) url params, m,
     mkWorld (trace w ++ [HttpGet url params]) (S (http_calls w))
             (clock_reads w) (sleeps w) (tasks w)).

Definition now : M Q :=
  fun m w =>
    (Ret (time_time env (clock_reads w)), m,
     mkWorld (trace w) (http_calls w) (S (clock_reads w)) (sleeps w)
             (tasks w)).

Definition sleep (seconds : Q) : M unit :=
  fun m w =>
    (asyncio_sleep env (sleeps w) seconds, m,
     mkWorld (trace w ++ [Sleep seconds]) (http_calls w) (clock_reads w)
             (S (sleeps w)) (tasks w)).

(** [KumaMonitor.__init__]; [session] is the environment's [http_get]. *)
Definition __init__ (url : string) (interval0 : Q)
    (friendly_name : option string)
    (status_getter0 : option (Attrs -> Outcome bool))
    (msg_getter0 : option (Attrs -> Outcome (option string)))
    (include_latency0 : bool) (w : World)
  : Outcome KumaMonitor * World :=
  let derived :=
    match httpx_URL env url with
    | Ret (netloc, path) => Ret (netloc ++ path)%string
    | Raise e => Raise e
    end in
  let named :=
    match friendly_name with
    | Some n => if truthy friendly_name then Ret n else derived
    | None => derived
    end in
  match named with
  | Raise e => (Raise e, w)
  | Ret n =>
      let m :=
        mkMonitor
          (mkAttrs n url interval0 include_latency0 None (Deque.empty 100) None)
          (match status_getter0 with Some g => g | None => _status_getter end)
          (match msg_getter0 with Some g => g | None => _msg_getter end) in
      (Ret m,
       mkWorld (trace w ++ [AddEventListener "message"]) (http_calls w)
               (clock_reads w) (sleeps w) (tasks w))
  end.

(** [KumaMonitor.__del__]. *)
Definition __del__ : M unit := emit RemoveEventListener.

(** [KumaMonitor._message_listener]. *)
Definition _message_listener (message : RoomMessageText) : M unit :=
  v <- lift (client_latency env message) ;;
  set_attrs (fun a => with_history (Deque.append (_history a) v) a).

(** [KumaMonitor.push]. *)
Definition push : M Response :=
  m <- self ;;
  status <- lift (status_getter m (attrs m)) ;;
  msg <- lift (msg_getter m (attrs m)) ;;
  let params : Params :=
    [("status", PStr (if status : bool then "up" else "down"));
     ("msg", match msg with
             | Some s => if truthy msg then PStr s else PNone
             | None => PNone
             end)] in
  params <- (if include_latency (attrs m)
             then ping <- lift (average_latency (attrs m)) ;;
                  ret (dict_set "ping" (PFloat ping) params)
             else ret params) ;;
  log_debug (PushingTo (push_url (attrs m)) params) ;;
  resp <- get (push_url (attrs m)) params ;;
  (if (status_code resp =? 200)%Z
   then t <- now ;; set_attrs (with_last_push (Some t))
   else ret tt) ;;
  log_debug (PushedTo (push_url (attrs m)) (status_code resp)) ;;
  m' <- self ;;
  dispatch "kuma_push" [AMonitor m'; AResponse resp] ;;
  ret resp.

(** One pass through the body of [while True] in [KumaMonitor.main_loop]. *)
Definition iteration : M unit :=
  m <- self ;;
  log_debug (SendingAutoPush (push_url (attrs m))) ;;
  dispatch "kuma_autopush_start" [AMonitor m] ;;
  try_finally
    (try_except
       (response <- push ;;
        m' <- self ;;
        dispatch "kuma_autopush_end" [AMonitor m'; AResponse response])
       (fun e =>
          m' <- self ;;
          dispatch "kuma_autopush_error" [AMonitor m'; AError e]))
    (m' <- self ;; sleep (interval (attrs m'))).

(** [KumaMonitor.main_loop], cut after [n] iterations.  The loop has no
    exit of its own: [Ret tt] says that [n] iterations have run and the
    loop goes on, [Raise e] that [e] left the loop. *)
Fixpoint main_loop (n : nat) : M unit :=
  match n with
  | O => ret tt
  | S n' => iteration ;; main_loop n'
  end.

(** [KumaMonitor.start], called from a thread whose event loop is
    [running] or not. *)
Definition start (running : bool) : M TaskId :=
  task <- create_task running ;;
  set_attrs (with_task (Some task)) ;;
  ret task.

(** [KumaMonitor.stop].  A task object is always truthy. *)
Definition stop : M unit :=
  m <- self ;;
  match _task (attrs m) with
  | Some task => cancel task ;; set_attrs (with_task None)
  | None => ret tt
  end.

End Monitor.

(** ** Runs of a monitor *)

(** What can happen to a monitor between its construction and a given
    moment: the host delivers a message to the listener, somebody calls
    [push], [start] or [stop], or the loop makes some iterations.  The
    caller goes on whatever the outcome of a call was.  All of this happens
    while the host's event loop runs; a [start] without a running loop
    raises and changes nothing, so it adds nothing to a run. *)
Inductive Op : Type :=
| OpMessage (message : RoomMessageText)
| OpPush
| OpIterations (n : nat)
| OpStart
| OpStop.

Definition forget {A} (r : Outcome A * KumaMonitor * World)
  : KumaMonitor * World :=
  match r with (_, m, w) => (m, w) end.

Definition step (env : Env) (op : Op) (m : KumaMonitor) (w : World)
  : KumaMonitor * World :=
  match op with
  | OpMessage message => forget (_message_listener env message m w)
  | OpPush => forget (push env m w)
  | OpIterations n => forget (main_loop env n m w)
  | OpStart => forget (start true m w)
  | OpStop => forget (stop m w)
  end.

Fixpoint run (env : Env) (ops : list Op) (m : KumaMonitor) (w : World)
  : KumaMonitor * World :=
  match ops with
  | [] => (m, w)
  | op :: ops' => match step env op m w with (m', w') => run env ops' m' w' end
  end.

(** The samples that the host's latency computation yields for a sequence
    of delivered messages. *)
Definition samples (env : Env) (messages : list RoomMessageText) : list float :=
  flat_map (fun message =>
              match client_latency env message with
              | Ret v => [v]
              | Raise _ => []
              end) messages.


(** The number of loops of the monitor that the event loop still runs. *)
Definition running_loops (w : World) : nat :=
  length (filter (fun s => match s with Running => true | Cancelled => false end)
                 (tasks w)).

(** The environment's clock never goes back. *)
Definition monotone_clock (env : Env) : Prop :=
  forall i j, (i <= j)%nat -> time_time env i <= time_time env j.

(** ** What the scheduler shows of itself *)

Inductive SchedulerEvent : Type :=
| Starting
| Completed (response : Response)
| Failed (error : exn)
| Waited (seconds : Q).

(** The scheduler's notifications and waits among the events of a trace. *)
Definition scheduler_event (ev : Event) : list SchedulerEvent :=
  match ev with
  | Dispatch name args =>
      if String.eqb name "kuma_autopush_start" then [Starting]
      else if String.eqb name "kuma_autopush_end" then
        match args with
        | [_; AResponse r] => [Completed r]
        | _ => []
        end
      else if String.eqb name "kuma_autopush_error" then
        match args with
        | [_; AError e] => [Failed e]
        | _ => []
        end
      else []
  | Sleep s => [Waited s]
  | _ => []
  end.

Definition scheduler_events (evs : list Event) : list SchedulerEvent :=
  flat_map scheduler_event evs.

(** What one iteration shows, given how its push ended. *)
Definition block (seconds : Q) (o : Outcome Response) : list SchedulerEvent :=
  [Starting;
   match o with Ret r => Completed r | Raise e => Failed e end;
   Waited seconds].

(** The world in which the push of an iteration starts: the iteration has
    logged and announced itself. *)
Definition announced (m : KumaMonitor) (w : World) : World :=
  mkWorld (trace w ++ [LogDebug (SendingAutoPush (push_url (attrs m)));
                       Dispatch "kuma_autopush_start" [AMonitor m]])
          (http_calls w) (clock_reads w) (sleeps w) (tasks w).

(** Nothing cancels the loop: getters and transport raise instances of
    [Exception] only, and every sleep runs to its end. *)
Definition raises_Exceptions_only {A B} (f : A -> Outcome B) : Prop :=
  forall a e, f a = Raise e -> is_Exception e = true.

Record uncancelled (env : Env) (m : KumaMonitor) : Prop := mkUncancelled {
  unc_status : raises_Exceptions_only (status_getter m);
  unc_msg : raises_Exceptions_only (msg_getter m);
  unc_http : forall n url params e,
      http_get env n url params = Raise e -> is_Exception e = true;
  unc_sleep : forall n s, asyncio_sleep env n s = Ret tt
}.

(** ** Sample collaborators *)

Definition ok_response : Response := mkResponse 200 "OK".
Definition bad_gateway : Response := mkResponse 502 "Bad Gateway".

(** A host whose latency is the age of the event in milliseconds at time
    [1000], and fails on an event without a timestamp. *)
Definition sample_latency (message : RoomMessageText) : Outcome float :=
  match server_timestamp message with
  | Some ts => Ret (float_of_Z (1000 - ts))
  | None => Raise (OtherException "AttributeError")
  end.

Definition sample_url (url : string) : Outcome (string * string) :=
  Ret ("kuma.example", "/api/push/abc").

(** A transport that always answers 200, a clock that ticks on each reading. *)
Definition steady_env : Env :=
  mkEnv (fun _ _ _ => Ret ok_response)
        (fun i => inject_Z (Z.of_nat i))
        (fun _ _ => Ret tt)
        sample_latency sample_url.

(** A transport whose second request fails to connect. *)
Definition flaky_env : Env :=
  mkEnv (fun n _ _ => if (n =? 1)%nat then Raise (OtherException "ConnectError")
                      else Ret ok_response)
        (fun i => inject_Z (Z.of_nat i))
        (fun _ _ => Ret tt)
        sample_latency sample_url.


(** A transport that answers 502. *)
Definition failing_env : Env :=
  mkEnv (fun _ _ _ => Ret bad_gateway)
        (fun i => inject_Z (Z.of_nat i))
        (fun _ _ => Ret tt)
        sample_latency sample_url.

(** A monitor as [__init__] leaves it, with the default getters. *)
Definition fresh (latency : bool) : KumaMonitor :=
  mkMonitor
    (mkAttrs "kuma.example/api/push/abc" "https://kuma.example/api/push/abc"
             60 latency None (Deque.empty 100) None)
    _status_getter _msg_getter.

(** A monitor whose status getter fails. *)
Definition broken_status (_ : Attrs) : Outcome bool :=
  Raise (OtherException "RuntimeError").

Definition broken : KumaMonitor :=
  mkMonitor (attrs (fresh false)) broken_status _msg_getter.

Definition timed (ts : Z) : RoomMessageText :=
  mkMessage "@alice:example.org" "hello" (Some ts).

Definition untimed : RoomMessageText :=
  mkMessage "@alice:example.org" "hello" None.

(** [last_push], once set, is a reading that the clock has given before. *)
Definition clocked (env : Env) (m : KumaMonitor) (w : World) : Prop :=
  match _last_push (attrs m) with
  | None => True
  | Some t => exists i, (i < clock_reads w)%nat /\ t = time_time env i
  end.

(** How the pushes of the first [n] iterations of the loop end, in order:
    each iteration pushes in the world it has announced itself in. *)
Fixpoint pushes (env : Env) (n : nat) (m : KumaMonitor) (w : World)
  : list (Outcome Response) :=
  match n with
  | O => []
  | S n' =>
      match push env m (announced m w), iteration env m w with
      | (o, _, _), (_, m', w') => o :: pushes env n' m' w'
      end
  end.

(** The notifications among the scheduler's events, without the waits. *)
Definition is_notification (s : SchedulerEvent) : bool :=
  match s with
  | Waited _ => false
  | _ => true
  end.

(** ** The event stubs of [_event_stubs.py] *)

(** The parameters a stub declares after its name. *)
Inductive ArgKind : Type := KMonitor | KResponse | KError.

Definition arg_kind (a : Arg) : ArgKind :=
  match a with
  | AMonitor _ => KMonitor
  | AResponse _ => KResponse
  | AError _ => KError
  end.

Definition ArgKind_eqb (a b : ArgKind) : bool :=
  match a, b with
  | KMonitor, KMonitor => true
  | KResponse, KResponse => true
  | KError, KError => true
  | _, _ => false
  end.

Fixpoint kinds_eqb (xs ys : list ArgKind) : bool :=
  match xs, ys with
  | [], [] => true
  | x :: xs', y :: ys' => ArgKind_eqb x y && kinds_eqb xs' ys'
  | _, _ => false
  end.

(** [kuma_push(monitor, response)], [kuma_autopush_start(monitor)],
    [kuma_autopush_end(monitor, response)] and
    [kuma_autopush_error(monitor, error)]. *)
Definition event_stubs : list (string * list ArgKind) :=
  [("kuma_push", [KMonitor; KResponse]);
   ("kuma_autopush_start", [KMonitor]);
   ("kuma_autopush_end", [KMonitor; KResponse]);
   ("kuma_autopush_error", [KMonitor; KError])].

(** A dispatch fits the stubs when one of them has its name and takes the
    arguments it passes; other events have nothing to fit. *)
Definition fits_stubs (ev : Event) : bool :=
  match ev with
  | Dispatch event args =>
      existsb (fun stub =>
                 String.eqb (fst stub) event
                 && kinds_eqb (map arg_kind args) (snd stub))
              event_stubs
  | _ => true
  end.

(** The messages that a run delivers to the listener, in order. *)
Definition delivered (ops : list Op) : list RoomMessageText :=
  flat_map (fun op => match op with
                      | OpMessage message => [message]
                      | _ => []
                      end) ops.

(** The configuration of a monitor: what [__init__] is given. *)
Definition same_configuration (m m' : KumaMonitor) : Prop :=
  name (attrs m') = name (attrs m)
  /\ push_url (attrs m') = push_url (attrs m)
  /\ interval (attrs m') = interval (attrs m)
  /\ include_latency (attrs m') = include_latency (attrs m)
  /\ status_getter m' = status_getter m
  /\ msg_getter m' = msg_getter m.

(** A transport whose requests are cancelled while they are awaited. *)
Definition cancelling_env : Env :=
  mkEnv (fun _ _ _ => Raise CancelledError)
        (fun i => inject_Z (Z.of_nat i))
        (fun _ _ => Ret tt)
        sample_latency sample_url.

(** An event loop that cancels every sleep. *)
Definition interrupting_env : Env :=
  mkEnv (fun _ _ _ => Ret ok_response)
        (fun i => inject_Z (Z.of_nat i))
        (fun _ _ => Raise CancelledError)
        sample_latency sample_url.

(** A URL parser that rejects what it is given. *)
Definition unparsable_env : Env :=
  mkEnv (fun _ _ _ => Ret ok_response)
        (fun i => inject_Z (Z.of_nat i))
        (fun _ _ => Ret tt)
        sample_latency (fun _ => Raise (OtherException "InvalidURL")).

(** [m'] is [m] but for a later [_last_push]: configuration, window and
    task reference are the same, and a push time that was set is still set. *)
Definition pushed_only (m m' : KumaMonitor) : Prop :=
  same_configuration m m'
  /\ _history (attrs m') = _history (attrs m)
  /\ _task (attrs m') = _task (attrs m)
  /\ (_last_push (attrs m) <> None -> _last_push (attrs m') <> None).

(** [w'] has the trace of [w] and, after it, events that all fit the stubs. *)
Definition fitting_extension (w w' : World) : Prop :=
  exists new, trace w' = trace w ++ new /\ forallb fits_stubs new = true.

(** Operations other than [start] and [stop]. *)
Definition leaves_tasks (op : Op) : bool :=
  match op with
  | OpStart => false
  | OpStop => false
  | _ => true
  end.

(** A push time [b] that is not earlier than the push time [a]: an unset
    one is before everything, and a set one is never followed by an unset. *)
Definition not_before (a b : option Q) : Prop :=
  match a, b with
  | None, _ => True
  | Some _, None => False
  | Some t, Some t' => t <= t'
  end.

(** * Properties *)

(** ** The last elements of a list *)

Lemma lastn_all {A} (n : nat) (l : list A) : (length l <= n)%nat -> lastn n l = l.
Proof.
  intros H. unfold lastn. replace (length l - n)%nat with 0%nat by lia. reflexivity.
Qed.

Lemma lastn_length {A} (n : nat) (l : list A) : (length (lastn n l) <= n)%nat.
Proof. unfold lastn. rewrite length_skipn. lia. Qed.

Lemma lastn_app {A} (n : nat) (a b : list A) :
  lastn n (lastn n a ++ b) = lastn n (a ++ b).
Proof.
  unfold lastn. rewrite !length_app, length_skipn.
  destruct (Nat.le_gt_cases (length a) n) as [Hle|Hgt].
  - replace (length a - n)%nat with 0%nat by lia. simpl.
    now rewrite Nat.sub_0_r.
  - rewrite (skipn_app (length a + length b - n)).
    rewrite (skipn_app (length a - (length a - n) + length b - n)).
    rewrite length_skipn, skipn_skipn.
    f_equal.
    + f_equal. lia.
    + f_equal. lia.
Qed.

(** ** The latency window *)

(** What [__init__] leaves: the given configuration, an empty window of
    capacity 100, no push time and no task. *)
Lemma init_state (env : Env) (url : string) (interval0 : Q)
      (friendly_name : option string)
      (status_getter0 : option (Attrs -> Outcome bool))
      (msg_getter0 : option (Attrs -> Outcome (option string)))
      (include_latency0 : bool) (w w' : World) (m : KumaMonitor) :
  __init__ env url interval0 friendly_name status_getter0 msg_getter0
           include_latency0 w = (Ret m, w') ->
  _history (attrs m) = Deque.empty 100
  /\ _last_push (attrs m) = None
  /\ _task (attrs m) = None
  /\ include_latency (attrs m) = include_latency0
  /\ interval (attrs m) = interval0
  /\ push_url (attrs m) = url.
Proof.
  unfold __init__.
  destruct (match friendly_name with
            | Some n =>
                if truthy friendly_name then Ret n
                else match httpx_URL env url with
                     | Ret (netloc, path) => Ret (netloc ++ path)%string
                     | Raise e => Raise e
                     end
            | None => match httpx_URL env url with
                      | Ret (netloc, path) => Ret (netloc ++ path)%string
                      | Raise e => Raise e
                      end
            end) as [n|e]; intros H; inversion H; subst; repeat split.
Qed.

Lemma append_items (d : Deque.t) (x : float) :
  (Deque.len d <= Deque.maxlen d)%nat ->
  Deque.items (Deque.append d x) = lastn (Deque.maxlen d) (Deque.items d ++ [x]).
Proof.
  unfold Deque.len, Deque.append, lastn. intros Hlen.
  rewrite length_app. simpl length.
  destruct (Nat.ltb_spec (Deque.maxlen d) (length (Deque.items d) + 1)) as [Hfull|Hroom];
    simpl.
  - replace (length (Deque.items d) + 1 - Deque.maxlen d)%nat with 1%nat by lia.
    reflexivity.
  - replace (length (Deque.items d) + 1 - Deque.maxlen d)%nat with 0%nat by lia.
    reflexivity.
Qed.

Lemma append_maxlen (d : Deque.t) (x : float) :
  Deque.maxlen (Deque.append d x) = Deque.maxlen d.
Proof.
  unfold Deque.append.
  destruct (Deque.maxlen d <? length (Deque.items d ++ [x]))%nat; reflexivity.
Qed.

Lemma append_len (d : Deque.t) (x : float) :
  (Deque.len d <= Deque.maxlen d)%nat ->
  (Deque.len (Deque.append d x) <= Deque.maxlen (Deque.append d x))%nat.
Proof.
  intros Hlen. rewrite append_maxlen. unfold Deque.len.
  rewrite append_items by exact Hlen. apply lastn_length.
Qed.

(** Appending a sequence of samples keeps the last [maxlen] of everything
    that was ever appended. *)
Lemma fold_append_items (xs : list float) (d : Deque.t) :
  (Deque.len d <= Deque.maxlen d)%nat ->
  let d' := fold_left Deque.append xs d in
  Deque.maxlen d' = Deque.maxlen d
  /\ Deque.items d' = lastn (Deque.maxlen d) (Deque.items d ++ xs).
Proof.
  revert d. induction xs as [|x xs IH]; intros d Hlen; simpl.
  - split; [reflexivity|]. rewrite app_nil_r. symmetry. apply lastn_all. exact Hlen.
  - destruct (IH (Deque.append d x) (append_len d x Hlen)) as [Hmax Hitems].
    rewrite append_maxlen in Hmax, Hitems. split; [exact Hmax|].
    rewrite Hitems, append_items by exact Hlen.
    rewrite lastn_app, <- app_assoc. reflexivity.
Qed.





(** ** A single push *)

Ltac unfold_push :=
  unfold push, bind, self, lift, ret, log_debug, dispatch, emit, get, now,
    set_attrs; simpl.

(** C6.  When the status getter raises, or the status getter returns and the
    message getter raises, [push] raises that very exception and leaves the
    monitor and the world as they were: no request, no [kuma_push]
    notification, [last_push] as before. *)
Theorem push_getter_failure (env : Env) (m : KumaMonitor) (w : World) (e : exn) :
  status_getter m (attrs m) = Raise e
  \/ (returns (status_getter m (attrs m)) = true
      /\ msg_getter m (attrs m) = Raise e) ->
  push env m w = (Raise e, m, w).
Proof.
  intros [Hstatus | [Hstatus Hmsg]]; unfold_push.
  - rewrite Hstatus. reflexivity.
  - destruct (status_getter m (attrs m)) as [status|e']; [|discriminate Hstatus].
    rewrite Hmsg. reflexivity.
Qed.

Lemma push_getter_failure_witness :
  (status_getter broken (attrs broken) = Raise (OtherException "RuntimeError")
   \/ (returns (status_getter broken (attrs broken)) = true
       /\ msg_getter broken (attrs broken) = Raise (OtherException "RuntimeError")))
  /\ push steady_env broken world0
     = (Raise (OtherException "RuntimeError"), broken, world0).
Proof.
  split.
  - left. reflexivity.
  - apply (push_getter_failure steady_env broken world0). left. reflexivity.
Defined.

(** C7.  With [include_latency] set and an empty window, [push] raises
    before anything is sent: monitor and world are as they were, so no
    request, with or without a ping, has been issued.  When both getters
    return, what is raised is the [ZeroDivisionError] of the average. *)
Theorem push_empty_window (env : Env) (m : KumaMonitor) (w : World) :
  include_latency (attrs m) = true ->
  Deque.items (_history (attrs m)) = [] ->
  exists e,
    push env m w = (Raise e, m, w)
    /\ (returns (status_getter m (attrs m)) = true ->
        returns (msg_getter m (attrs m)) = true ->
        e = ZeroDivisionError).
Proof.
  intros Hlat Hempty. unfold_push.
  destruct (status_getter m (attrs m)) as [status|e].
  - destruct (msg_getter m (attrs m)) as [msg|e].
    + rewrite Hlat. unfold average_latency, py_div, Deque.len.
      rewrite Hempty. simpl. exists ZeroDivisionError. split; reflexivity.
    + exists e. split; [reflexivity|]. intros _ H. discriminate H.
  - exists e. split; [reflexivity|]. intros H. discriminate H.
Qed.

Lemma push_empty_window_witness :
  include_latency (attrs (fresh true)) = true
  /\ Deque.items (_history (attrs (fresh true))) = []
  /\ exists e,
      push steady_env (fresh true) world0 = (Raise e, fresh true, world0)
      /\ (returns (status_getter (fresh true) (attrs (fresh true))) = true ->
          returns (msg_getter (fresh true) (attrs (fresh true))) = true ->
          e = ZeroDivisionError).
Proof.
  split; [reflexivity|]. split; [reflexivity|].
  exact (push_empty_window steady_env (fresh true) world0 eq_refl eq_refl).
Defined.

(** The events that a call added to the trace. *)
Lemma skipn_added {A} (old new : list A) : skipn (length old) (old ++ new) = new.
Proof.
  rewrite skipn_app, skipn_all, Nat.sub_diag. reflexivity.
Qed.

Lemma skipn_nothing {A} (old : list A) : skipn (length old) old = [].
Proof. apply skipn_all. Qed.

Ltac added_events :=
  cbn [trace] in *; repeat rewrite <- app_assoc in *; simpl app in *;
  rewrite ?skipn_added, ?skipn_nothing in *.

(** C8.  When [push] has issued its request and the transport has answered
    it with a response, whatever its status code, [push] returns that
    response and the last thing it did was to dispatch [kuma_push] with the
    monitor and the response; all it did is log, request, log, dispatch. *)
Theorem push_completed_notification (env : Env) (m : KumaMonitor) (w : World) :
  let '(o, m', w') := push env m w in
  forall params resp,
    In (HttpGet (push_url (attrs m)) params)
       (skipn (length (trace w)) (trace w')) ->
    http_get env (http_calls w) (push_url (attrs m)) params = Ret resp ->
    o = Ret resp
    /\ skipn (length (trace w)) (trace w')
       = [LogDebug (PushingTo (push_url (attrs m)) params);
          HttpGet (push_url (attrs m)) params;
          LogDebug (PushedTo (push_url (attrs m)) (status_code resp));
          Dispatch "kuma_push" [AMonitor m'; AResponse resp]].
Proof.
  destruct (push env m w) as [[o m'] w'] eqn:Hpush.
  intros params resp Hin Hresp. revert Hpush. unfold_push.
  destruct (status_getter m (attrs m)) as [status|e].
  2:{ intros Hpush. inversion Hpush; subst. added_events. destruct Hin. }
  destruct (msg_getter m (attrs m)) as [msg|e].
  2:{ intros Hpush. inversion Hpush; subst. added_events. destruct Hin. }
  destruct (include_latency (attrs m)).
  - destruct (average_latency (attrs m)) as [ping|e]; simpl.
    2:{ intros Hpush. inversion Hpush; subst. added_events. destruct Hin. }
    match goal with
    | |- context [http_get env _ _ ?p] =>
        destruct (http_get env (http_calls w) (push_url (attrs m)) p)
          as [resp'|e] eqn:Hget
    end.
    + destruct (status_code resp' =? 200)%Z; simpl;
        intros Hpush; inversion Hpush; subst; clear Hpush;
        simpl in Hin; added_events;
        destruct Hin as [Hin|[Hin|[Hin|[Hin|[]]]]]; try discriminate Hin;
        inversion Hin; subst; rewrite Hget in Hresp; inversion Hresp; subst;
        split; reflexivity.
    + intros Hpush; inversion Hpush; subst; clear Hpush.
      simpl in Hin; added_events.
      destruct Hin as [Hin|[Hin|[]]]; try discriminate Hin.
      inversion Hin; subst. rewrite Hget in Hresp. discriminate Hresp.
  - simpl.
    match goal with
    | |- context [http_get env _ _ ?p] =>
        destruct (http_get env (http_calls w) (push_url (attrs m)) p)
          as [resp'|e] eqn:Hget
    end.
    + destruct (status_code resp' =? 200)%Z; simpl;
        intros Hpush; inversion Hpush; subst; clear Hpush;
        simpl in Hin; added_events;
        destruct Hin as [Hin|[Hin|[Hin|[Hin|[]]]]]; try discriminate Hin;
        inversion Hin; subst; rewrite Hget in Hresp; inversion Hresp; subst;
        split; reflexivity.
    + intros Hpush; inversion Hpush; subst; clear Hpush.
      simpl in Hin; added_events.
      destruct Hin as [Hin|[Hin|[]]]; try discriminate Hin.
      inversion Hin; subst. rewrite Hget in Hresp. discriminate Hresp.
Qed.

Lemma push_completed_notification_witness :
  let params := [("status", PStr "up"); ("msg", PStr "OK")] in
  In (HttpGet (push_url (attrs (fresh false))) params)
     (skipn (length (trace world0))
            (trace (snd (push failing_env (fresh false) world0))))
  /\ http_get failing_env (http_calls world0) (push_url (attrs (fresh false)))
              params = Ret bad_gateway
  /\ fst (fst (push failing_env (fresh false) world0)) = Ret bad_gateway
  /\ skipn (length (trace world0))
           (trace (snd (push failing_env (fresh false) world0)))
     = [LogDebug (PushingTo (push_url (attrs (fresh false))) params);
        HttpGet (push_url (attrs (fresh false))) params;
        LogDebug (PushedTo (push_url (attrs (fresh false))) 502);
        Dispatch "kuma_push" [AMonitor (fresh false); AResponse bad_gateway]].
Proof.
  assert (Hin : In (HttpGet (push_url (attrs (fresh false)))
                            [("status", PStr "up"); ("msg", PStr "OK")])
                   (skipn (length (trace world0))
                          (trace (snd (push failing_env (fresh false) world0))))).
  { simpl. right. left. reflexivity. }
  split; [exact Hin|]. split; [reflexivity|].
  exact (push_completed_notification failing_env (fresh false) world0
           [("status", PStr "up"); ("msg", PStr "OK")] bad_gateway Hin eq_refl).
Defined.

(** C10.  With [include_latency] unset, no request that [push] issues has a
    [ping] parameter, whatever the window holds; and when both getters
    return, the request is issued and [push] ends exactly as the transport
    does, so that an empty window cannot make it fail. *)
Theorem push_without_latency (env : Env) (m : KumaMonitor) (w : World) :
  include_latency (attrs m) = false ->
  let '(o, _, w') := push env m w in
  (forall url params,
      In (HttpGet url params) (skipn (length (trace w)) (trace w')) ->
      dict_get "ping" params = None)
  /\ (returns (status_getter m (attrs m)) = true ->
      returns (msg_getter m (attrs m)) = true ->
      exists params,
        In (HttpGet (push_url (attrs m)) params)
           (skipn (length (trace w)) (trace w'))
        /\ o = http_get env (http_calls w) (push_url (attrs m)) params).
Proof.
  intros Hlat.
  destruct (push env m w) as [[o m'] w'] eqn:Hpush.
  revert Hpush. unfold_push. rewrite Hlat.
  destruct (status_getter m (attrs m)) as [status|e].
  2:{ intros Hpush; inversion Hpush; subst. added_events.
      split; [intros url params []|intros H; discriminate H]. }
  destruct (msg_getter m (attrs m)) as [msg|e].
  2:{ intros Hpush; inversion Hpush; subst. added_events.
      split; [intros url params []|intros _ H; discriminate H]. }
  simpl.
  match goal with
  | |- context [http_get env _ _ ?p] =>
      destruct (http_get env (http_calls w) (push_url (attrs m)) p)
        as [resp|e] eqn:Hget
  end.
  - destruct (status_code resp =? 200)%Z; simpl;
      intros Hpush; inversion Hpush; subst; clear Hpush; added_events;
      (split;
       [ intros url params [Hin|[Hin|[Hin|[Hin|[]]]]]; try discriminate Hin;
         inversion Hin; subst; reflexivity
       | intros _ _; eexists; split;
         [ right; left; reflexivity | symmetry; exact Hget ] ]).
  - intros Hpush; inversion Hpush; subst; clear Hpush; added_events.
    split.
    + intros url params [Hin|[Hin|[]]]; try discriminate Hin.
      inversion Hin; subst; reflexivity.
    + intros _ _. eexists. split;
        [ right; left; reflexivity | symmetry; exact Hget ].
Qed.

Lemma push_without_latency_witness :
  include_latency (attrs (fresh false)) = false
  /\ (forall url params,
         In (HttpGet url params)
            (skipn (length (trace world0))
                   (trace (snd (push steady_env (fresh false) world0)))) ->
         dict_get "ping" params = None)
  /\ fst (fst (push steady_env (fresh false) world0)) = Ret ok_response.
Proof.
  split; [reflexivity|].
  pose proof (push_without_latency steady_env (fresh false) world0 eq_refl) as H.
  simpl in H. destruct H as [Hping Hend]. split.
  - exact Hping.
  - reflexivity.
Defined.

(** ** What a push and an iteration do to the monitor and the world *)

(** [push] changes the monitor only by setting [_last_push], to the clock
    reading it takes, and only on a 200.  It adds no scheduler event and
    leaves sleeps and tasks alone. *)
Lemma push_effect (env : Env) (m : KumaMonitor) (w : World) :
  let '(o, m', w') := push env m w in
  (match o with
   | Ret resp =>
       if (status_code resp =? 200)%Z
       then m' = mkMonitor (with_last_push (Some (time_time env (clock_reads w)))
                                           (attrs m))
                           (status_getter m) (msg_getter m)
            /\ clock_reads w' = S (clock_reads w)
       else m' = m /\ clock_reads w' = clock_reads w
   | Raise _ => m' = m /\ clock_reads w' = clock_reads w
   end)
  /\ sleeps w' = sleeps w
  /\ tasks w' = tasks w
  /\ exists new, trace w' = trace w ++ new /\ scheduler_events new = [].
Proof.
  destruct (push env m w) as [[o m'] w'] eqn:Hpush.
  revert Hpush. unfold_push.
  destruct (status_getter m (attrs m)) as [status|e].
  2:{ intros H; inversion H; subst. repeat split. exists []. now rewrite app_nil_r. }
  destruct (msg_getter m (attrs m)) as [msg|e].
  2:{ intros H; inversion H; subst. repeat split. exists []. now rewrite app_nil_r. }
  destruct (include_latency (attrs m)).
  - destruct (average_latency (attrs m)) as [ping|e]; simpl.
    2:{ intros H; inversion H; subst. repeat split. exists []. now rewrite app_nil_r. }
    match goal with
    | |- context [http_get env _ _ ?p] =>
        destruct (http_get env (http_calls w) (push_url (attrs m)) p) as [resp|e]
    end.
    + destruct (status_code resp =? 200)%Z eqn:Hcode; simpl;
        intros H; inversion H; subst; clear H; rewrite Hcode;
        repeat split; eexists; (split; [added_events; reflexivity | reflexivity]).
    + intros H; inversion H; subst; clear H.
      repeat split; eexists; (split; [added_events; reflexivity | reflexivity]).
  - simpl.
    match goal with
    | |- context [http_get env _ _ ?p] =>
        destruct (http_get env (http_calls w) (push_url (attrs m)) p) as [resp|e]
    end.
    + destruct (status_code resp =? 200)%Z eqn:Hcode; simpl;
        intros H; inversion H; subst; clear H; rewrite Hcode;
        repeat split; eexists; (split; [added_events; reflexivity | reflexivity]).
    + intros H; inversion H; subst; clear H.
      repeat split; eexists; (split; [added_events; reflexivity | reflexivity]).
Qed.

(** One iteration, told from the push it makes: the push starts in the
    announced world; what follows is the notification of its end or of its
    error (none for what [except Exception] lets through), then the sleep;
    a sleep that raises ends the iteration with its exception, a push that
    raised past the handler with that one. *)
Lemma iteration_cases (env : Env) (m : KumaMonitor) (w : World) :
  let '(o, m', w') := push env m (announced m w) in
  let slept (said : list Event) :=
    mkWorld (trace w' ++ said ++ [Sleep (interval (attrs m'))])
            (http_calls w') (clock_reads w') (S (sleeps w')) (tasks w') in
  let nap := asyncio_sleep env (sleeps w') (interval (attrs m')) in
  iteration env m w =
  match o with
  | Ret resp =>
      (match nap with Ret _ => Ret tt | Raise e' => Raise e' end, m',
       slept [Dispatch "kuma_autopush_end" [AMonitor m'; AResponse resp]])
  | Raise e =>
      if is_Exception e
      then (match nap with Ret _ => Ret tt | Raise e' => Raise e' end, m',
            slept [Dispatch "kuma_autopush_error" [AMonitor m'; AError e]])
      else (match nap with Ret _ => Raise e | Raise e' => Raise e' end, m',
            slept [])
  end.
Proof.
  destruct (push env m (announced m w)) as [[o m'] w'] eqn:Hpush.
  unfold iteration, try_finally, try_except, bind, self, log_debug, dispatch,
    emit, sleep. simpl.
  rewrite <- app_assoc. simpl app. fold (announced m w). rewrite Hpush.
  destruct o as [resp|e]; simpl.
  - rewrite <- app_assoc. simpl app.
    destruct (asyncio_sleep env (sleeps w') (interval (attrs m'))); reflexivity.
  - destruct (is_Exception e); simpl.
    + rewrite <- app_assoc. simpl app.
      destruct (asyncio_sleep env (sleeps w') (interval (attrs m'))); reflexivity.
    + destruct (asyncio_sleep env (sleeps w') (interval (attrs m'))); reflexivity.
Qed.

Lemma push_keeps (env : Env) (m : KumaMonitor) (w : World) :
  let '(_, m', _) := push env m w in
  status_getter m' = status_getter m
  /\ msg_getter m' = msg_getter m
  /\ interval (attrs m') = interval (attrs m).
Proof.
  pose proof (push_effect env m w) as Heff.
  destruct (push env m w) as [[o m'] w'].
  destruct Heff as [Hmon _].
  destruct o as [resp|e]; [destruct (status_code resp =? 200)%Z|];
    destruct Hmon as [-> _]; repeat split.
Qed.

(** Every way a push can go.  Either it raises before it sends anything,
    with monitor and world untouched; or it has built its parameters and
    issued one request, and ends as the transport does: on an exception
    with the monitor untouched and nothing dispatched, on a response with
    the second log entry and the [kuma_push] dispatch. *)
Lemma push_shape (env : Env) (m : KumaMonitor) (w : World) :
  let '(o, m', w') := push env m w in
  (exists e, o = Raise e /\ m' = m /\ w' = w)
  \/ (exists status msg params,
         status_getter m (attrs m) = Ret status
         /\ msg_getter m (attrs m) = Ret msg
         /\ dict_get "status" params
            = Some (PStr (if status : bool then "up" else "down"))
         /\ dict_get "msg" params
            = Some (match msg with
                    | Some s => if String.eqb s "" then PNone else PStr s
                    | None => PNone
                    end)
         /\ dict_get "ping" params
            = (if include_latency (attrs m)
               then match average_latency (attrs m) with
                    | Ret ping => Some (PFloat ping)
                    | Raise _ => None
                    end
               else None)
         /\ (include_latency (attrs m) = true ->
             returns (average_latency (attrs m)) = true)
         /\ length params = (if include_latency (attrs m) then 3 else 2)%nat
         /\ http_calls w' = S (http_calls w)
         /\ match http_get env (http_calls w) (push_url (attrs m)) params with
            | Raise e =>
                o = Raise e /\ m' = m
                /\ trace w' = trace w
                              ++ [LogDebug (PushingTo (push_url (attrs m)) params);
                                  HttpGet (push_url (attrs m)) params]
            | Ret resp =>
                o = Ret resp
                /\ trace w' = trace w
                              ++ [LogDebug (PushingTo (push_url (attrs m)) params);
                                  HttpGet (push_url (attrs m)) params;
                                  LogDebug (PushedTo (push_url (attrs m))
                                                     (status_code resp));
                                  Dispatch "kuma_push"
                                           [AMonitor m'; AResponse resp]]
            end).
Proof.
  destruct (push env m w) as [[o m'] w'] eqn:Hpush.
  revert Hpush. unfold_push.
  destruct (status_getter m (attrs m)) as [status|e].
  2:{ intros H; inversion H; subst. left. exists e. repeat split. }
  destruct (msg_getter m (attrs m)) as [msg|e].
  2:{ intros H; inversion H; subst. left. exists e. repeat split. }
  assert (Hmsg : match msg with
                 | Some s => if truthy msg then PStr s else PNone
                 | None => PNone
                 end
                 = match msg with
                   | Some s => if String.eqb s "" then PNone else PStr s
                   | None => PNone
                   end).
  { destruct msg as [s|]; [|reflexivity]. simpl.
    destruct (String.eqb s ""); reflexivity. }
  destruct (include_latency (attrs m)).
  - destruct (average_latency (attrs m)) as [ping|e]; simpl.
    2:{ intros H; inversion H; subst. left. exists e. repeat split. }
    match goal with
    | |- context [http_get env _ _ ?p] =>
        destruct (http_get env (http_calls w) (push_url (attrs m)) p)
          as [resp|e] eqn:Hget
    end.
    + destruct (status_code resp =? 200)%Z; simpl;
        intros H; inversion H; subst; clear H; right;
        eexists status, msg, _; rewrite Hget; added_events;
        (repeat split; try reflexivity); simpl; rewrite Hmsg; reflexivity.
    + intros H; inversion H; subst; clear H. right.
      eexists status, msg, _. rewrite Hget. added_events.
      (repeat split; try reflexivity); simpl; rewrite Hmsg; reflexivity.
  - simpl.
    match goal with
    | |- context [http_get env _ _ ?p] =>
        destruct (http_get env (http_calls w) (push_url (attrs m)) p)
          as [resp|e] eqn:Hget
    end.
    + destruct (status_code resp =? 200)%Z; simpl;
        intros H; inversion H; subst; clear H; right;
        eexists status, msg, _; rewrite Hget; added_events;
        (repeat split; try reflexivity; try discriminate);
        simpl; rewrite Hmsg; reflexivity.
    + intros H; inversion H; subst; clear H. right.
      eexists status, msg, _. rewrite Hget. added_events.
      (repeat split; try reflexivity; try discriminate);
        simpl; rewrite Hmsg; reflexivity.
Qed.

(** ** [last_push] comes from the clock *)

Lemma push_clocked (env : Env) (m : KumaMonitor) (w : World) :
  clocked env m w ->
  let '(_, m', w') := push env m w in clocked env m' w'.
Proof.
  intros Hinv. pose proof (push_effect env m w) as Heff.
  destruct (push env m w) as [[o m'] w'].
  destruct Heff as [Hmon _].
  destruct o as [resp|e].
  - destruct (status_code resp =? 200)%Z; destruct Hmon as [-> Hreads].
    + unfold clocked. simpl. exists (clock_reads w). split; [lia | reflexivity].
    + unfold clocked in *. rewrite Hreads. exact Hinv.
  - destruct Hmon as [-> Hreads]. unfold clocked in *. rewrite Hreads. exact Hinv.
Qed.

Lemma iteration_clocked (env : Env) (m : KumaMonitor) (w : World) :
  clocked env m w ->
  let '(_, m', w') := iteration env m w in clocked env m' w'.
Proof.
  intros Hinv. pose proof (iteration_cases env m w) as Hit.
  assert (Hinv' : clocked env m (announced m w)) by exact Hinv.
  apply push_clocked in Hinv'.
  destruct (push env m (announced m w)) as [[o m'] w'].
  cbv zeta in Hit. rewrite Hit.
  destruct o as [resp|e]; [|destruct (is_Exception e)]; exact Hinv'.
Qed.

Lemma main_loop_clocked (env : Env) (n : nat) (m : KumaMonitor) (w : World) :
  clocked env m w ->
  let '(_, m', w') := main_loop env n m w in clocked env m' w'.
Proof.
  revert m w. induction n as [|n IH]; intros m w Hinv; simpl.
  - exact Hinv.
  - unfold bind. apply iteration_clocked in Hinv.
    destruct (iteration env m w) as [[[u|e] m1] w1].
    + apply IH. exact Hinv.
    + exact Hinv.
Qed.

Lemma step_clocked (env : Env) (op : Op) (m : KumaMonitor) (w : World) :
  clocked env m w ->
  let '(m', w') := step env op m w in clocked env m' w'.
Proof.
  intros Hinv. destruct op as [message| |n| |]; simpl.
  - unfold _message_listener, bind, lift, set_attrs.
    destruct (client_latency env message); exact Hinv.
  - apply push_clocked in Hinv. destruct (push env m w) as [[o m'] w']. exact Hinv.
  - apply (main_loop_clocked env n) in Hinv.
    destruct (main_loop env n m w) as [[o m'] w']. exact Hinv.
  - exact Hinv.
  - unfold stop, bind, self. destruct (_task (attrs m)); exact Hinv.
Qed.

Lemma run_clocked (env : Env) (ops : list Op) (m : KumaMonitor) (w : World) :
  clocked env m w ->
  let '(m', w') := run env ops m w in clocked env m' w'.
Proof.
  revert m w. induction ops as [|op ops IH]; intros m w Hinv; simpl.
  - exact Hinv.
  - apply (step_clocked env op) in Hinv.
    destruct (step env op m w) as [m1 w1]. apply IH. exact Hinv.
Qed.


Lemma monotone_steady : monotone_clock steady_env.
Proof.
  intros i j Hij. simpl. rewrite <- Zle_Qle. lia.
Defined.



(** ** The loop *)

(** What [average_latency] raises is an [Exception]. *)
Lemma average_latency_raises (a : Attrs) (e : exn) :
  average_latency a = Raise e -> is_Exception e = true.
Proof.
  unfold average_latency, py_div.
  destruct (Deque.len (_history a) =? 0)%nat.
  - intros H. inversion H. reflexivity.
  - unfold py_round.
    destruct (Prim2SF _) as [s|s| |s m x]; try discriminate.
    destruct (match x with
              | Zneg k => round_half_even_div (Zpos m * 10 ^ Z.of_nat 2)
                                              (2 ^ Zpos k)
              | _ => (Zpos m * 10 ^ Z.of_nat 2 * 2 ^ x)%Z
              end) as [|n|n]; try discriminate.
    destruct (SFdiv prec emax _ _); intros H; inversion H; reflexivity.
Qed.

(** Under [uncancelled], whatever [push] raises is an [Exception]. *)
Lemma push_raises (env : Env) (m : KumaMonitor) (w : World) :
  uncancelled env m ->
  forall e m' w', push env m w = (Raise e, m', w') -> is_Exception e = true.
Proof.
  intros [Hstatus Hmsg Hhttp _] e m' w'. unfold_push.
  destruct (status_getter m (attrs m)) as [status|e0] eqn:Hs.
  2:{ intros H; inversion H; subst. exact (Hstatus _ _ Hs). }
  destruct (msg_getter m (attrs m)) as [msg|e0] eqn:Hm.
  2:{ intros H; inversion H; subst. exact (Hmsg _ _ Hm). }
  destruct (include_latency (attrs m)).
  - destruct (average_latency (attrs m)) as [ping|e0] eqn:Havg; simpl.
    2:{ intros H; inversion H; subst. exact (average_latency_raises _ _ Havg). }
    match goal with
    | |- context [http_get env _ _ ?p] =>
        destruct (http_get env (http_calls w) (push_url (attrs m)) p)
          as [resp|e0] eqn:Hget
    end.
    + destruct (status_code resp =? 200)%Z; simpl; intros H; discriminate H.
    + intros H; inversion H; subst. exact (Hhttp _ _ _ _ Hget).
  - simpl.
    match goal with
    | |- context [http_get env _ _ ?p] =>
        destruct (http_get env (http_calls w) (push_url (attrs m)) p)
          as [resp|e0] eqn:Hget
    end.
    + destruct (status_code resp =? 200)%Z; simpl; intros H; discriminate H.
    + intros H; inversion H; subst. exact (Hhttp _ _ _ _ Hget).
Qed.

Lemma scheduler_events_app (a b : list Event) :
  scheduler_events (a ++ b) = scheduler_events a ++ scheduler_events b.
Proof. apply flat_map_app. Qed.

(** An uncancelled iteration ends normally, having shown one [block]. *)
Lemma iteration_block (env : Env) (m : KumaMonitor) (w : World) :
  uncancelled env m ->
  let '(o, m', w') := push env m (announced m w) in
  iteration env m w
  = (Ret tt, m',
     mkWorld (trace w'
              ++ [match o with
                  | Ret resp =>
                      Dispatch "kuma_autopush_end" [AMonitor m'; AResponse resp]
                  | Raise e =>
                      Dispatch "kuma_autopush_error" [AMonitor m'; AError e]
                  end;
                  Sleep (interval (attrs m'))])
             (http_calls w') (clock_reads w') (S (sleeps w')) (tasks w')).
Proof.
  intros Hunc. pose proof (iteration_cases env m w) as Hit.
  pose proof (push_raises env m (announced m w) Hunc) as Hexc.
  destruct (push env m (announced m w)) as [[o m'] w'].
  cbv zeta in Hit. rewrite Hit.
  rewrite (unc_sleep _ _ Hunc).
  destruct o as [resp|e].
  - reflexivity.
  - rewrite (Hexc e m' w' eq_refl). reflexivity.
Qed.

Lemma uncancelled_same_getters (env : Env) (m m' : KumaMonitor) :
  status_getter m' = status_getter m ->
  msg_getter m' = msg_getter m ->
  uncancelled env m -> uncancelled env m'.
Proof.
  intros Hs Hm [Hstatus Hmsg Hhttp Hsleep].
  split; [rewrite Hs | rewrite Hm | |]; assumption.
Qed.

(** An uncancelled loop goes on after any number of iterations, and what it
    has shown by then is one [block] per iteration. *)
Lemma main_loop_blocks (env : Env) (n : nat) :
  forall (m : KumaMonitor) (w : World),
    uncancelled env m ->
    exists m' w' new,
      main_loop env n m w = (Ret tt, m', w')
      /\ trace w' = trace w ++ new
      /\ scheduler_events new
         = flat_map (block (interval (attrs m))) (pushes env n m w).
Proof.
  induction n as [|n IH]; intros m w Hunc.
  - exists m, w, []. simpl. rewrite app_nil_r. repeat split.
  - pose proof (iteration_block env m w Hunc) as Hit.
    pose proof (push_keeps env m (announced m w)) as Hkeep.
    pose proof (push_effect env m (announced m w)) as Heff.
    simpl. unfold bind.
    destruct (push env m (announced m w)) as [[o m1] w1].
    destruct Hkeep as (Hs & Hm & Hint).
    destruct Heff as (_ & _ & _ & new1 & Htrace1 & Hquiet).
    rewrite Hit.
    match goal with
    | |- context [main_loop env n m1 ?w2] =>
        destruct (IH m1 w2 (uncancelled_same_getters env m m1 Hs Hm Hunc))
          as (m' & w' & new' & Hloop & Htrace' & Hshown)
    end.
    exists m', w'. eexists. split; [exact Hloop|]. split.
    + rewrite Htrace'. cbn [trace]. rewrite Htrace1. cbn [announced trace].
      repeat rewrite <- app_assoc. reflexivity.
    + rewrite !scheduler_events_app, Hquiet, Hshown, Hint.
      destruct o as [resp|e]; reflexivity.
Qed.

(** C1.  As long as nothing cancels the loop (what getters and transport
    raise are instances of [Exception], no sleep is interrupted):
    - every iteration announces itself with [kuma_autopush_start] before
      its push, which runs in the announced world; when the push returns a
      response the iteration dispatches [kuma_autopush_end] with it, when
      the push raises it dispatches [kuma_autopush_error] with the
      exception; in both cases it then sleeps one interval and ends
      normally, so the loop goes on;
    - any number of iterations leaves the loop running and has shown, per
      iteration and in order, starting, then completed or failed as the
      push of that iteration ended, then one wait of the interval;
    - when the pushes of three iterations return, raise, return, the
      notifications are starting, completed, starting, failed, starting,
      completed. *)
Theorem main_loop_isolates_failures (env : Env) (m : KumaMonitor) :
  uncancelled env m ->
  (forall w,
      let '(o, m', w') := push env m (announced m w) in
      iteration env m w
      = (Ret tt, m',
         mkWorld (trace w'
                  ++ [match o with
                      | Ret resp =>
                          Dispatch "kuma_autopush_end"
                                   [AMonitor m'; AResponse resp]
                      | Raise e =>
                          Dispatch "kuma_autopush_error"
                                   [AMonitor m'; AError e]
                      end;
                      Sleep (interval (attrs m'))])
                 (http_calls w') (clock_reads w') (S (sleeps w')) (tasks w')))
  /\ (forall n w,
         let '(o, _, w') := main_loop env n m w in
         o = Ret tt
         /\ scheduler_events (skipn (length (trace w)) (trace w'))
            = flat_map (block (interval (attrs m))) (pushes env n m w))
  /\ (forall w r1 e r3,
         pushes env 3 m w = [Ret r1; Raise e; Ret r3] ->
         filter is_notification
           (scheduler_events
              (skipn (length (trace w))
                     (trace (snd (main_loop env 3 m w)))))
         = [Starting; Completed r1; Starting; Failed e; Starting; Completed r3]).
Proof.
  intros Hunc. split; [|split].
  - intros w. apply iteration_block. exact Hunc.
  - intros n w.
    destruct (main_loop_blocks env n m w Hunc)
      as (m' & w' & new & Hloop & Htrace & Hshown).
    rewrite Hloop. split; [reflexivity|].
    rewrite Htrace, skipn_added. exact Hshown.
  - intros w r1 e r3 Hpushes.
    destruct (main_loop_blocks env 3 m w Hunc)
      as (m' & w' & new & Hloop & Htrace & Hshown).
    rewrite Hloop. cbn [snd]. rewrite Htrace, skipn_added, Hshown, Hpushes.
    reflexivity.
Qed.

Lemma uncancelled_flaky : uncancelled flaky_env (fresh false).
Proof.
  split.
  - intros a e H. discriminate H.
  - intros a e H. discriminate H.
  - intros n url params e. simpl. destruct (n =? 1)%nat; intros H.
    + inversion H. reflexivity.
    + discriminate H.
  - intros n s. reflexivity.
Defined.

Lemma main_loop_isolates_failures_witness :
  uncancelled flaky_env (fresh false)
  /\ pushes flaky_env 3 (fresh false) world0
     = [Ret ok_response; Raise (OtherException "ConnectError"); Ret ok_response]
  /\ filter is_notification
       (scheduler_events
          (skipn (length (trace world0))
                 (trace (snd (main_loop flaky_env 3 (fresh false) world0)))))
     = [Starting; Completed ok_response;
        Starting; Failed (OtherException "ConnectError");
        Starting; Completed ok_response].
Proof.
  split; [exact uncancelled_flaky|]. split; [reflexivity|].
  exact (proj2 (proj2 (main_loop_isolates_failures flaky_env (fresh false)
                         uncancelled_flaky))
           world0 ok_response (OtherException "ConnectError") ok_response
           eq_refl).
Defined.

(** ** Starting and stopping *)

Lemma running_loops_app (w : World) (ts : list TaskState) :
  length (filter (fun s => match s with Running => true | Cancelled => false end)
                 (tasks w ++ ts))
  = (running_loops w
     + length (filter (fun s => match s with Running => true | Cancelled => false end)
                      ts))%nat.
Proof. unfold running_loops. rewrite filter_app, length_app. reflexivity. Qed.

Lemma cancel_nth_app (ts rest : list TaskState) (s : TaskState) :
  cancel_nth (length ts) (ts ++ s :: rest) = ts ++ Cancelled :: rest.
Proof.
  induction ts as [|t ts IH]; simpl.
  - reflexivity.
  - rewrite IH. reflexivity.
Qed.

(** C4, on the code: a second [start] creates a second task and overwrites
    the reference to the first without cancelling it, so two loops of the
    monitor run; the [stop] that follows cancels the second only, and one
    loop runs on with no reference left to stop it by. *)
Theorem start_twice_runs_two_loops (env : Env) (m : KumaMonitor) (w : World) :
  let '(m2, w2) := run env [OpStart; OpStart] m w in
  running_loops w2 = (running_loops w + 2)%nat
  /\ _task (attrs m2) = Some (S (length (tasks w)))
  /\ let '(m3, w3) := step env OpStop m2 w2 in
     running_loops w3 = (running_loops w + 1)%nat
     /\ _task (attrs m3) = None.
Proof.
  simpl. unfold start, stop, bind, self, create_task, cancel, set_attrs, ret.
  simpl. rewrite length_app. simpl length.
  rewrite Nat.add_1_r. repeat split.
  - unfold running_loops at 1. cbn [tasks].
    rewrite <- app_assoc. simpl app. rewrite running_loops_app. reflexivity.
  - unfold running_loops at 1. cbn [tasks].
    rewrite <- app_assoc. simpl app.
    change (tasks w ++ [Running; Running])
      with (tasks w ++ [Running] ++ [Running]).
    rewrite app_assoc.
    replace (S (length (tasks w))) with (length (tasks w ++ [Running]))
      by (rewrite length_app; simpl; lia).
    rewrite cancel_nth_app, <- app_assoc. simpl app.
    rewrite running_loops_app. reflexivity.
Qed.

(** C9.  [stop] never raises and leaves no task reference; on a monitor
    that holds no task reference, be it stopped before or never started, it
    changes nothing at all; so a second [stop] is a no-op. *)
Theorem stop_idempotent (m : KumaMonitor) (w : World) :
  (_task (attrs m) = None -> stop m w = (Ret tt, m, w))
  /\ let '(o, m', w') := stop m w in
     o = Ret tt
     /\ _task (attrs m') = None
     /\ stop m' w' = (Ret tt, m', w').
Proof.
  unfold stop, bind, self, cancel, set_attrs, ret. split.
  - intros Hidle. rewrite Hidle. reflexivity.
  - destruct (_task (attrs m)) as [task|] eqn:Htask; simpl.
    + repeat split.
    + rewrite Htask. repeat split.
Qed.

Lemma stop_idempotent_witness :
  _task (attrs (fresh true)) = None
  /\ stop (fresh true) world0 = (Ret tt, fresh true, world0).
Proof.
  split; [reflexivity|].
  exact (proj1 (stop_idempotent (fresh true) world0) eq_refl).
Defined.

(** ** The listener *)

(** C5, as the code has it.  The listener has no error handling: when the
    host's latency computation raises, the listener raises the same
    exception and records nothing; when it returns a sample, the listener
    appends it to the window and returns.  The world is not touched. *)
Theorem message_listener_outcome (env : Env) (message : RoomMessageText)
    (m : KumaMonitor) (w : World) :
  let '(o, m', w') := _message_listener env message m w in
  w' = w
  /\ match client_latency env message with
     | Ret v =>
         o = Ret tt
         /\ _history (attrs m') = Deque.append (_history (attrs m)) v
     | Raise e => o = Raise e /\ m' = m
     end.
Proof.
  unfold _message_listener, bind, lift, set_attrs.
  destruct (client_latency env message) as [v|e]; simpl; repeat split.
Qed.

(** C5 fails as stated: an event for which the host's latency computation
    raises makes the listener raise. *)
Lemma message_listener_raises :
  _message_listener steady_env untimed (fresh true) world0
  = (Raise (OtherException "AttributeError"), fresh true, world0).
Proof. reflexivity. Qed.

(** * Further properties of the code *)

(** ** The request of a push *)

(** X1.  Whatever request a push issues goes to the monitor's [push_url]
    and carries: [status], "up" or "down" as the status getter said; [msg],
    the message getter's string, or [None] when that was [None] or empty;
    [ping], the average latency, exactly when [include_latency] is set; and
    nothing else. *)
Theorem push_request_parameters (env : Env) (m : KumaMonitor) (w : World) :
  forall url params,
    In (HttpGet url params)
       (skipn (length (trace w)) (trace (snd (push env m w)))) ->
    url = push_url (attrs m)
    /\ exists status msg,
        status_getter m (attrs m) = Ret status
        /\ msg_getter m (attrs m) = Ret msg
        /\ dict_get "status" params
           = Some (PStr (if status : bool then "up" else "down"))
        /\ dict_get "msg" params
           = Some (match msg with
                   | Some s => if String.eqb s "" then PNone else PStr s
                   | None => PNone
                   end)
        /\ dict_get "ping" params
           = (if include_latency (attrs m)
              then match average_latency (attrs m) with
                   | Ret ping => Some (PFloat ping)
                   | Raise _ => None
                   end
              else None)
        /\ length params = (if include_latency (attrs m) then 3 else 2)%nat.
Proof.
  intros url params Hin. pose proof (push_shape env m w) as Hshape.
  destruct (push env m w) as [[o m'] w']. cbn [snd] in Hin.
  destruct Hshape as [(e & _ & _ & ->) | (status & msg & params' & Hs & Hm
                       & Hstatus & Hmsg & Hping & _ & Hlen & _ & Hend)].
  - rewrite skipn_nothing in Hin. destruct Hin.
  - assert (Hreq : HttpGet url params
                   = HttpGet (push_url (attrs m)) params').
    { destruct (http_get env (http_calls w) (push_url (attrs m)) params')
        as [resp|e].
      - destruct Hend as [_ Htrace]. rewrite Htrace, skipn_added in Hin.
        destruct Hin as [Hin|[Hin|[Hin|[Hin|[]]]]]; try discriminate Hin.
        symmetry. exact Hin.
      - destruct Hend as (_ & _ & Htrace). rewrite Htrace, skipn_added in Hin.
        destruct Hin as [Hin|[Hin|[]]]; try discriminate Hin.
        symmetry. exact Hin. }
    inversion Hreq; subst. split; [reflexivity|].
    exists status, msg. repeat split; assumption.
Qed.

Lemma push_request_parameters_witness :
  In (HttpGet "https://kuma.example/api/push/abc"
              [("status", PStr "up"); ("msg", PStr "OK")])
     (skipn (length (trace world0))
            (trace (snd (push steady_env (fresh false) world0))))
  /\ dict_get "ping" [("status", PStr "up"); ("msg", PStr "OK")] = None.
Proof.
  assert (Hin : In (HttpGet "https://kuma.example/api/push/abc"
                            [("status", PStr "up"); ("msg", PStr "OK")])
                   (skipn (length (trace world0))
                          (trace (snd (push steady_env (fresh false) world0))))).
  { simpl. right. left. reflexivity. }
  split; [exact Hin|].
  destruct (push_request_parameters steady_env (fresh false) world0 _ _ Hin)
    as (_ & status & msg & _ & _ & _ & _ & Hping & _).
  exact Hping.
Defined.

(** X2.  When the transport raises on the request of a push, the push
    raises the same exception after that single request: the monitor, and
    with it [last_push], is untouched, and neither the second log entry nor
    [kuma_push] follows. *)
Theorem push_transport_failure (env : Env) (m : KumaMonitor) (w : World) :
  forall params e,
    In (HttpGet (push_url (attrs m)) params)
       (skipn (length (trace w)) (trace (snd (push env m w)))) ->
    http_get env (http_calls w) (push_url (attrs m)) params = Raise e ->
    fst (push env m w) = (Raise e, m)
    /\ http_calls (snd (push env m w)) = S (http_calls w)
    /\ skipn (length (trace w)) (trace (snd (push env m w)))
       = [LogDebug (PushingTo (push_url (attrs m)) params);
          HttpGet (push_url (attrs m)) params].
Proof.
  intros params e Hin Hget. pose proof (push_shape env m w) as Hshape.
  destruct (push env m w) as [[o m'] w']. cbn [fst snd] in *.
  destruct Hshape as [(e' & _ & _ & ->) | (status & msg & params' & _ & _
                       & _ & _ & _ & _ & _ & Hcalls & Hend)].
  - rewrite skipn_nothing in Hin. destruct Hin.
  - destruct (http_get env (http_calls w) (push_url (attrs m)) params')
      as [resp|e'] eqn:Hget'.
    + destruct Hend as [_ Htrace]. rewrite Htrace, skipn_added in Hin.
      destruct Hin as [Hin|[Hin|[Hin|[Hin|[]]]]]; try discriminate Hin.
      inversion Hin; subst. rewrite Hget in Hget'. discriminate Hget'.
    + destruct Hend as (-> & -> & Htrace). rewrite Htrace, skipn_added in *.
      destruct Hin as [Hin|[Hin|[]]]; try discriminate Hin.
      inversion Hin; subst. rewrite Hget in Hget'. inversion Hget'; subst.
      repeat split. exact Hcalls.
Qed.

Lemma push_transport_failure_witness :
  let params := [("status", PStr "up"); ("msg", PStr "OK")] in
  In (HttpGet (push_url (attrs (fresh false))) params)
     (skipn (length (trace world0))
            (trace (snd (push cancelling_env (fresh false) world0))))
  /\ http_get cancelling_env (http_calls world0)
              (push_url (attrs (fresh false))) params = Raise CancelledError
  /\ fst (push cancelling_env (fresh false) world0)
     = (Raise CancelledError, fresh false).
Proof.
  assert (Hin : In (HttpGet (push_url (attrs (fresh false)))
                            [("status", PStr "up"); ("msg", PStr "OK")])
                   (skipn (length (trace world0))
                          (trace (snd (push cancelling_env (fresh false)
                                            world0))))).
  { simpl. right. left. reflexivity. }
  split; [exact Hin|]. split; [reflexivity|].
  exact (proj1 (push_transport_failure cancelling_env (fresh false) world0
                  [("status", PStr "up"); ("msg", PStr "OK")] CancelledError
                  Hin eq_refl)).
Defined.

(** ** What runs keep *)

Lemma pushed_only_refl (m : KumaMonitor) : pushed_only m m.
Proof. unfold pushed_only, same_configuration. repeat split. auto. Qed.

Lemma pushed_only_trans (a b c : KumaMonitor) :
  pushed_only a b -> pushed_only b c -> pushed_only a c.
Proof.
  unfold pushed_only, same_configuration.
  intros ((H1 & H2 & H3 & H4 & H5 & H6) & H7 & H8 & H9)
         ((K1 & K2 & K3 & K4 & K5 & K6) & K7 & K8 & K9).
  repeat split; try congruence. auto.
Qed.

Lemma push_pushed_only (env : Env) (m : KumaMonitor) (w : World) :
  let '(_, m', w') := push env m w in
  pushed_only m m' /\ tasks w' = tasks w.
Proof.
  pose proof (push_effect env m w) as Heff.
  destruct (push env m w) as [[o m'] w'].
  destruct Heff as (Hmon & _ & Htasks & _). split; [|exact Htasks].
  destruct o as [resp|e]; [destruct (status_code resp =? 200)%Z|];
    destruct Hmon as [-> _]; try apply pushed_only_refl.
  unfold pushed_only, same_configuration. simpl. repeat split. discriminate.
Qed.

Lemma iteration_pushed_only (env : Env) (m : KumaMonitor) (w : World) :
  let '(_, m', w') := iteration env m w in
  pushed_only m m' /\ tasks w' = tasks w.
Proof.
  pose proof (iteration_cases env m w) as Hit.
  pose proof (push_pushed_only env m (announced m w)) as Hpush.
  destruct (push env m (announced m w)) as [[o m'] w'].
  cbv zeta in Hit. rewrite Hit.
  destruct o as [resp|e]; [|destruct (is_Exception e)]; exact Hpush.
Qed.

Lemma main_loop_pushed_only (env : Env) (n : nat) :
  forall (m : KumaMonitor) (w : World),
    let '(_, m', w') := main_loop env n m w in
    pushed_only m m' /\ tasks w' = tasks w.
Proof.
  induction n as [|n IH]; intros m w; simpl.
  - split; [apply pushed_only_refl | reflexivity].
  - unfold bind. pose proof (iteration_pushed_only env m w) as Hit.
    destruct (iteration env m w) as [[[u|e] m1] w1].
    + specialize (IH m1 w1). destruct (main_loop env n m1 w1) as [[o m'] w'].
      destruct Hit as [Hm Hw], IH as [Hm' Hw']. split.
      * exact (pushed_only_trans m m1 m' Hm Hm').
      * congruence.
    + exact Hit.
Qed.

(** What every operation keeps: the configuration, and a push time once it
    is set. *)
Lemma step_keeps (env : Env) (op : Op) (m : KumaMonitor) (w : World) :
  let '(m', _) := step env op m w in
  same_configuration m m'
  /\ (_last_push (attrs m) <> None -> _last_push (attrs m') <> None).
Proof.
  destruct op as [message| |n| |]; simpl.
  - unfold _message_listener, bind, lift, set_attrs.
    destruct (client_latency env message); simpl;
      unfold same_configuration; repeat split; auto.
  - pose proof (push_pushed_only env m w) as H.
    destruct (push env m w) as [[o m'] w'].
    destruct H as [(Hc & _ & _ & Hl) _]. split; assumption.
  - pose proof (main_loop_pushed_only env n m w) as H.
    destruct (main_loop env n m w) as [[o m'] w'].
    destruct H as [(Hc & _ & _ & Hl) _]. split; assumption.
  - unfold same_configuration. repeat split; auto.
  - unfold stop, bind, self. destruct (_task (attrs m)); simpl;
      unfold same_configuration; repeat split; auto.
Qed.

(** X3.  No run changes what the monitor was constructed with: name, URL,
    interval, latency flag and getters stay.  A push time that is set is
    never unset, and [next_push] is always the last push time plus the
    interval of construction, absent as long as there is no push time. *)
Theorem run_keeps_configuration (env : Env) (ops : list Op)
    (m : KumaMonitor) (w : World) :
  let '(m', _) := run env ops m w in
  same_configuration m m'
  /\ (_last_push (attrs m) <> None -> _last_push (attrs m') <> None)
  /\ next_push (attrs m')
     = match last_push (attrs m') with
       | None => None
       | Some t => Some (t + interval (attrs m))
       end.
Proof.
  assert (Hrun : let '(m', _) := run env ops m w in
                 same_configuration m m'
                 /\ (_last_push (attrs m) <> None ->
                     _last_push (attrs m') <> None)).
  { revert m w. induction ops as [|op ops IH]; intros m w; simpl.
    - unfold same_configuration. repeat split; auto.
    - pose proof (step_keeps env op m w) as Hstep.
      destruct (step env op m w) as [m1 w1]. specialize (IH m1 w1).
      destruct (run env ops m1 w1) as [m' w'].
      destruct Hstep as [(H1 & H2 & H3 & H4 & H5 & H6) Hl].
      destruct IH as [(K1 & K2 & K3 & K4 & K5 & K6) Kl].
      unfold same_configuration. repeat split; try congruence. auto. }
  destruct (run env ops m w) as [m' w'].
  destruct Hrun as [Hconf Hlast]. repeat split; try apply Hconf; try exact Hlast.
  unfold next_push. destruct Hconf as (_ & _ & Hint & _).
  rewrite Hint. reflexivity.
Qed.

(** Only the listener changes the window. *)
Lemma step_history (env : Env) (op : Op) (m : KumaMonitor) (w : World) :
  _history (attrs (fst (step env op m w)))
  = fold_left Deque.append (samples env (delivered [op])) (_history (attrs m)).
Proof.
  destruct op as [message| |n| |]; simpl.
  - unfold _message_listener, bind, lift, set_attrs, samples. simpl.
    destruct (client_latency env message); reflexivity.
  - pose proof (push_pushed_only env m w) as H.
    destruct (push env m w) as [[o m'] w']. apply H.
  - pose proof (main_loop_pushed_only env n m w) as H.
    destruct (main_loop env n m w) as [[o m'] w']. apply H.
  - reflexivity.
  - unfold stop, bind, self. destruct (_task (attrs m)); reflexivity.
Qed.

Lemma samples_app (env : Env) (a b : list RoomMessageText) :
  samples env (a ++ b) = samples env a ++ samples env b.
Proof. apply flat_map_app. Qed.

Lemma run_history (env : Env) (ops : list Op) :
  forall (m : KumaMonitor) (w : World),
    _history (attrs (fst (run env ops m w)))
    = fold_left Deque.append (samples env (delivered ops)) (_history (attrs m)).
Proof.
  induction ops as [|op ops IH]; intros m w.
  - reflexivity.
  - assert (Hsplit : delivered (op :: ops) = delivered [op] ++ delivered ops).
    { change (op :: ops) with ([op] ++ ops). apply flat_map_app. }
    rewrite Hsplit, samples_app, fold_left_app, <- (step_history env op m w).
    simpl.
    destruct (step env op m w) as [m1 w1]. apply IH.
Qed.

(** X4.  Through any run of a monitor that starts with the empty window,
    pushes, loop iterations, starts and stops included, the window holds
    the last 100 of the samples of the delivered messages, in order of
    delivery: only the listener ever writes to it, and events whose latency
    computation raised leave no trace in it. *)
Theorem window_over_any_run (env : Env) (ops : list Op)
    (m : KumaMonitor) (w : World) :
  _history (attrs m) = Deque.empty 100 ->
  let window := _history (attrs (fst (run env ops m w))) in
  Deque.items window = lastn 100 (samples env (delivered ops))
  /\ Deque.maxlen window = 100%nat
  /\ (Deque.len window <= 100)%nat.
Proof.
  intros Hempty window.
  assert (Hfold : window = fold_left Deque.append (samples env (delivered ops))
                                     (Deque.empty 100)).
  { unfold window. rewrite run_history, Hempty. reflexivity. }
  destruct (fold_append_items (samples env (delivered ops)) (Deque.empty 100))
    as [Hmax Hitems].
  { unfold Deque.len, Deque.empty. simpl. lia. }
  simpl in Hmax, Hitems. rewrite <- Hfold in Hmax, Hitems.
  repeat split.
  - exact Hitems.
  - exact Hmax.
  - unfold Deque.len. rewrite Hitems. apply lastn_length.
Qed.

Lemma window_over_any_run_witness :
  _history (attrs (fresh true)) = Deque.empty 100
  /\ Deque.items
       (_history
          (attrs (fst (run steady_env
                           [OpMessage (timed 990); OpPush; OpMessage untimed;
                            OpStart; OpIterations 2; OpMessage (timed 970);
                            OpStop]
                           (fresh true) world0))))
     = lastn 100 [float_of_Z 10; float_of_Z 30].
Proof.
  split; [reflexivity|].
  exact (proj1 (window_over_any_run steady_env
                  [OpMessage (timed 990); OpPush; OpMessage untimed;
                   OpStart; OpIterations 2; OpMessage (timed 970); OpStop]
                  (fresh true) world0 eq_refl)).
Defined.

(** ** Tasks *)

(** X6.  Without a running event loop, [start] raises the [RuntimeError]
    of [asyncio.create_task] and changes nothing: no task, and [_task] as it
    was.  With one, [start] creates one running task, returns its handle
    and keeps it in [_task]; a [stop] right after cancels exactly that task
    and drops the reference, so the loops that ran before are the loops
    that run after. *)
Theorem start_then_stop (m : KumaMonitor) (w : World) :
  start false m w = (Raise (OtherException "RuntimeError"), m, w)
  /\ let '(o1, m1, w1) := start true m w in
     let '(o2, m2, w2) := stop m1 w1 in
     o1 = Ret (length (tasks w))
     /\ _task (attrs m1) = Some (length (tasks w))
     /\ tasks w1 = tasks w ++ [Running]
     /\ running_loops w1 = S (running_loops w)
     /\ o2 = Ret tt
     /\ _task (attrs m2) = None
     /\ tasks w2 = tasks w ++ [Cancelled]
     /\ running_loops w2 = running_loops w.
Proof.
  split; [reflexivity|].
  unfold start, stop, bind, self, create_task, cancel, set_attrs, ret. simpl.
  rewrite cancel_nth_app. repeat split.
  - unfold running_loops at 1. cbn [tasks]. rewrite running_loops_app. simpl. lia.
  - unfold running_loops at 1. cbn [tasks]. rewrite running_loops_app. simpl. lia.
Qed.

Lemma step_leaves_tasks (env : Env) (op : Op) (m : KumaMonitor) (w : World) :
  leaves_tasks op = true ->
  let '(m', w') := step env op m w in
  tasks w' = tasks w /\ _task (attrs m') = _task (attrs m).
Proof.
  destruct op as [message| |n| |]; simpl; intros Hop; try discriminate Hop.
  - unfold _message_listener, bind, lift, set_attrs.
    destruct (client_latency env message); simpl; split; reflexivity.
  - pose proof (push_pushed_only env m w) as H.
    destruct (push env m w) as [[o m'] w'].
    destruct H as [(_ & _ & Ht & _) Hw]. split; assumption.
  - pose proof (main_loop_pushed_only env n m w) as H.
    destruct (main_loop env n m w) as [[o m'] w'].
    destruct H as [(_ & _ & Ht & _) Hw]. split; assumption.
Qed.

(** X7.  Only [start] and [stop] touch the tasks: a run of deliveries,
    pushes and loop iterations leaves the task table and the monitor's task
    reference as they were. *)
Theorem only_start_and_stop_touch_tasks (env : Env) (ops : list Op)
    (m : KumaMonitor) (w : World) :
  forallb leaves_tasks ops = true ->
  let '(m', w') := run env ops m w in
  tasks w' = tasks w /\ _task (attrs m') = _task (attrs m).
Proof.
  revert m w. induction ops as [|op ops IH]; intros m w Hops; simpl.
  - split; reflexivity.
  - simpl in Hops. apply andb_prop in Hops. destruct Hops as [Hop Hops].
    pose proof (step_leaves_tasks env op m w Hop) as Hstep.
    destruct (step env op m w) as [m1 w1]. specialize (IH m1 w1 Hops).
    destruct (run env ops m1 w1) as [m' w'].
    destruct Hstep as [H1 H2], IH as [K1 K2]. split; congruence.
Qed.

Lemma only_start_and_stop_touch_tasks_witness :
  forallb leaves_tasks [OpMessage (timed 990); OpPush; OpIterations 1] = true
  /\ let '(m', w') :=
        run steady_env [OpMessage (timed 990); OpPush; OpIterations 1]
            (fresh false) (mkWorld [] 0 0 0 [Running; Cancelled]) in
      tasks w' = tasks (mkWorld [] 0 0 0 [Running; Cancelled])
      /\ _task (attrs m') = _task (attrs (fresh false)).
Proof.
  split; [reflexivity|].
  exact (only_start_and_stop_touch_tasks steady_env
           [OpMessage (timed 990); OpPush; OpIterations 1]
           (fresh false) (mkWorld [] 0 0 0 [Running; Cancelled]) eq_refl).
Defined.

(** ** How the loop ends *)

(** X8.  When the push of an iteration raises something that is not an
    [Exception] (a cancellation, say), the iteration dispatches neither
    [kuma_autopush_end] nor [kuma_autopush_error]; it still calls the sleep
    of its [finally], and then the loop ends, however many iterations were
    to come: with the exception of the push when the sleep returns, with
    that of the sleep when it raises. *)
Theorem loop_ends_when_push_is_cancelled (env : Env) (n : nat)
    (m m' : KumaMonitor) (w w' : World) (e : exn) :
  push env m (announced m w) = (Raise e, m', w') ->
  is_Exception e = false ->
  main_loop env (S n) m w
  = (Raise (match asyncio_sleep env (sleeps w') (interval (attrs m')) with
            | Ret _ => e
            | Raise e2 => e2
            end),
     m',
     mkWorld (trace w' ++ [Sleep (interval (attrs m'))])
             (http_calls w') (clock_reads w') (S (sleeps w')) (tasks w')).
Proof.
  intros Hpush Hbase. pose proof (iteration_cases env m w) as Hit.
  rewrite Hpush in Hit. cbv zeta in Hit. rewrite Hbase in Hit.
  simpl. unfold bind. rewrite Hit. simpl app.
  destruct (asyncio_sleep env (sleeps w') (interval (attrs m'))); reflexivity.
Qed.

Lemma loop_ends_when_push_is_cancelled_witness :
  let w' := snd (push cancelling_env (fresh false)
                      (announced (fresh false) world0)) in
  push cancelling_env (fresh false) (announced (fresh false) world0)
  = (Raise CancelledError, fresh false, w')
  /\ is_Exception CancelledError = false
  /\ fst (fst (main_loop cancelling_env 5 (fresh false) world0))
     = Raise CancelledError.
Proof.
  split; [reflexivity|]. split; [reflexivity|].
  rewrite (loop_ends_when_push_is_cancelled cancelling_env 4 (fresh false)
             (fresh false) world0
             (snd (push cancelling_env (fresh false)
                        (announced (fresh false) world0)))
             CancelledError eq_refl eq_refl).
  reflexivity.
Defined.

(** X9.  When the sleep of an iteration raises (the loop is cancelled while
    it waits), the loop ends with that exception, however many iterations
    were to come and however the push ended; the notification of the push
    has been dispatched before, and nothing is requested after. *)
Theorem loop_ends_when_sleep_is_cancelled (env : Env) (n : nat)
    (m m' : KumaMonitor) (w w' : World) (o : Outcome Response) (e2 : exn) :
  push env m (announced m w) = (o, m', w') ->
  asyncio_sleep env (sleeps w') (interval (attrs m')) = Raise e2 ->
  exists w'',
    main_loop env (S n) m w = (Raise e2, m', w'')
    /\ http_calls w'' = http_calls w'
    /\ sleeps w'' = S (sleeps w')
    /\ scheduler_events (skipn (length (trace w')) (trace w''))
       = match o with
         | Ret resp => [Completed resp]
         | Raise e => if is_Exception e then [Failed e] else []
         end ++ [Waited (interval (attrs m'))].
Proof.
  intros Hpush Hsleep. pose proof (iteration_cases env m w) as Hit.
  rewrite Hpush in Hit. cbv zeta in Hit. rewrite Hsleep in Hit.
  simpl. unfold bind.
  destruct o as [resp|e]; [|destruct (is_Exception e)];
    rewrite Hit; eexists; (split; [reflexivity|]);
    cbn [trace http_calls sleeps]; rewrite skipn_added; repeat split.
Qed.

Lemma loop_ends_when_sleep_is_cancelled_witness :
  let w' := snd (push interrupting_env (fresh false)
                      (announced (fresh false) world0)) in
  let m' := snd (fst (push interrupting_env (fresh false)
                           (announced (fresh false) world0))) in
  push interrupting_env (fresh false) (announced (fresh false) world0)
  = (Ret ok_response, m', w')
  /\ asyncio_sleep interrupting_env (sleeps w') (interval (attrs m'))
     = Raise CancelledError
  /\ exists w'',
      main_loop interrupting_env 3 (fresh false) world0
      = (Raise CancelledError, m', w'')
      /\ http_calls w'' = http_calls w'
      /\ sleeps w'' = S (sleeps w')
      /\ scheduler_events (skipn (length (trace w')) (trace w''))
         = [Completed ok_response] ++ [Waited (interval (attrs m'))].
Proof.
  split; [reflexivity|]. split; [reflexivity|].
  exact (loop_ends_when_sleep_is_cancelled interrupting_env 2 (fresh false)
           _ world0 _ (Ret ok_response) CancelledError eq_refl eq_refl).
Defined.

(** ** Latency asked for, nothing sampled yet *)

Lemma push_zero_division (env : Env) (m : KumaMonitor) (w : World) :
  include_latency (attrs m) = true ->
  Deque.items (_history (attrs m)) = [] ->
  returns (status_getter m (attrs m)) = true ->
  returns (msg_getter m (attrs m)) = true ->
  push env m w = (Raise ZeroDivisionError, m, w).
Proof.
  intros Hlat Hempty Hs Hm. unfold_push.
  destruct (status_getter m (attrs m)) as [status|e]; [|discriminate Hs].
  destruct (msg_getter m (attrs m)) as [msg|e]; [|discriminate Hm].
  rewrite Hlat. unfold average_latency, py_div, Deque.len. rewrite Hempty.
  reflexivity.
Qed.

(** X10.  A monitor that reports latency (the default) and has an empty
    window fails every automatic push: as long as no message arrives and no
    sleep is interrupted, each iteration announces itself, dispatches
    [kuma_autopush_error] with [ZeroDivisionError] and waits one interval;
    no request is ever issued and the monitor does not change. *)
Theorem autopush_with_empty_window (env : Env) (n : nat) (m : KumaMonitor) :
  include_latency (attrs m) = true ->
  Deque.items (_history (attrs m)) = [] ->
  returns (status_getter m (attrs m)) = true ->
  returns (msg_getter m (attrs m)) = true ->
  (forall k s, asyncio_sleep env k s = Ret tt) ->
  forall w,
  exists w' new,
    main_loop env n m w = (Ret tt, m, w')
    /\ http_calls w' = http_calls w
    /\ trace w' = trace w ++ new
    /\ scheduler_events new
       = flat_map (block (interval (attrs m)))
                  (repeat (Raise ZeroDivisionError) n).
Proof.
  intros Hlat Hempty Hs Hm Hsleep.
  induction n as [|n IH]; intros w.
  - exists w, []. simpl. rewrite app_nil_r. repeat split.
  - pose proof (iteration_cases env m w) as Hit.
    rewrite (push_zero_division env m (announced m w) Hlat Hempty Hs Hm) in Hit.
    cbv zeta in Hit. simpl is_Exception in Hit. cbv iota in Hit.
    rewrite Hsleep in Hit.
    simpl main_loop. unfold bind. rewrite Hit.
    match goal with
    | |- context [main_loop env n m ?w1] =>
        destruct (IH w1) as (w' & new & Hloop & Hcalls & Htrace & Hshown)
    end.
    exists w'.
    exists ([LogDebug (SendingAutoPush (push_url (attrs m)));
             Dispatch "kuma_autopush_start" [AMonitor m];
             Dispatch "kuma_autopush_error" [AMonitor m; AError ZeroDivisionError];
             Sleep (interval (attrs m))] ++ new).
    split; [exact Hloop|]. split; [exact Hcalls|]. split.
    + rewrite Htrace. cbn [trace announced]. rewrite <- !app_assoc. reflexivity.
    + rewrite scheduler_events_app, Hshown. reflexivity.
Qed.

Lemma autopush_with_empty_window_witness :
  include_latency (attrs (fresh true)) = true
  /\ Deque.items (_history (attrs (fresh true))) = []
  /\ returns (status_getter (fresh true) (attrs (fresh true))) = true
  /\ returns (msg_getter (fresh true) (attrs (fresh true))) = true
  /\ (forall k s, asyncio_sleep steady_env k s = Ret tt)
  /\ exists w' new,
      main_loop steady_env 2 (fresh true) world0 = (Ret tt, fresh true, w')
      /\ http_calls w' = http_calls world0
      /\ trace w' = trace world0 ++ new
      /\ scheduler_events new
         = flat_map (block (interval (attrs (fresh true))))
                    (repeat (Raise ZeroDivisionError) 2).
Proof.
  do 4 (split; [reflexivity|]).
  split; [intros k s; reflexivity|].
  exact (autopush_with_empty_window steady_env 2 (fresh true)
           eq_refl eq_refl eq_refl eq_refl (fun k s => eq_refl) world0).
Defined.

(** ** Dispatches and their stubs *)

Lemma fitting_refl (w : World) : fitting_extension w w.
Proof. exists []. rewrite app_nil_r. split; reflexivity. Qed.

Lemma fitting_trans (a b c : World) :
  fitting_extension a b -> fitting_extension b c -> fitting_extension a c.
Proof.
  intros (n1 & H1 & F1) (n2 & H2 & F2). exists (n1 ++ n2). split.
  - rewrite H2, H1, app_assoc. reflexivity.
  - rewrite forallb_app, F1, F2. reflexivity.
Qed.

Lemma push_fits (env : Env) (m : KumaMonitor) (w : World) :
  fitting_extension w (snd (push env m w)).
Proof.
  pose proof (push_shape env m w) as Hshape.
  destruct (push env m w) as [[o m'] w']. cbn [snd].
  destruct Hshape as [(e & _ & _ & ->) | (status & msg & params & _ & _
                       & _ & _ & _ & _ & _ & _ & Hend)].
  - apply fitting_refl.
  - destruct (http_get env (http_calls w) (push_url (attrs m)) params)
      as [resp|e].
    + destruct Hend as [_ Htrace]. eexists. split; [exact Htrace|reflexivity].
    + destruct Hend as (_ & _ & Htrace). eexists.
      split; [exact Htrace|reflexivity].
Qed.

Lemma iteration_fits (env : Env) (m : KumaMonitor) (w : World) :
  fitting_extension w (snd (iteration env m w)).
Proof.
  pose proof (iteration_cases env m w) as Hit.
  pose proof (push_fits env m (announced m w)) as Hpush.
  destruct (push env m (announced m w)) as [[o m'] w']. cbn [snd] in Hpush.
  cbv zeta in Hit. rewrite Hit.
  apply (fitting_trans w (announced m w)).
  { eexists. split; [reflexivity|reflexivity]. }
  apply (fitting_trans _ w' _ Hpush).
  destruct o as [resp|e]; [|destruct (is_Exception e)]; cbn [snd];
    eexists; (split; [reflexivity|reflexivity]).
Qed.

Lemma main_loop_fits (env : Env) (n : nat) :
  forall (m : KumaMonitor) (w : World),
    fitting_extension w (snd (main_loop env n m w)).
Proof.
  induction n as [|n IH]; intros m w; simpl.
  - apply fitting_refl.
  - unfold bind. pose proof (iteration_fits env m w) as Hit.
    destruct (iteration env m w) as [[[u|e] m1] w1]; cbn [snd] in Hit.
    + exact (fitting_trans w w1 _ Hit (IH m1 w1)).
    + exact Hit.
Qed.

Lemma step_fits (env : Env) (op : Op) (m : KumaMonitor) (w : World) :
  fitting_extension w (snd (step env op m w)).
Proof.
  destruct op as [message| |n| |]; simpl.
  - unfold _message_listener, bind, lift, set_attrs.
    destruct (client_latency env message); apply fitting_refl.
  - pose proof (push_fits env m w) as H.
    destruct (push env m w) as [[o m'] w']. exact H.
  - pose proof (main_loop_fits env n m w) as H.
    destruct (main_loop env n m w) as [[o m'] w']. exact H.
  - exists []. simpl. rewrite app_nil_r. split; reflexivity.
  - unfold stop, bind, self. destruct (_task (attrs m)); simpl;
      exists []; simpl; rewrite app_nil_r; split; reflexivity.
Qed.

(** X11.  In any run, the monitor only adds to the trace, and every event it
    dispatches is one of the four that [_event_stubs.py] declares, with the
    arguments the stub takes: [kuma_push] and [kuma_autopush_end] with the
    monitor and a response, [kuma_autopush_start] with the monitor,
    [kuma_autopush_error] with the monitor and an exception. *)
Theorem dispatches_fit_stubs (env : Env) (ops : list Op)
    (m : KumaMonitor) (w : World) :
  exists new,
    trace (snd (run env ops m w)) = trace w ++ new
    /\ forall event args,
        In (Dispatch event args) new ->
        In (event, map arg_kind args) event_stubs.
Proof.
  assert (Hfit : fitting_extension w (snd (run env ops m w))).
  { revert m w. induction ops as [|op ops IH]; intros m w; simpl.
    - apply fitting_refl.
    - pose proof (step_fits env op m w) as Hstep.
      destruct (step env op m w) as [m1 w1]. cbn [snd] in Hstep.
      exact (fitting_trans w w1 _ Hstep (IH m1 w1)). }
  destruct Hfit as (new & Htrace & Hall). exists new. split; [exact Htrace|].
  intros event args Hin.
  rewrite forallb_forall in Hall. specialize (Hall _ Hin).
  unfold fits_stubs, event_stubs in Hall. cbn [existsb fst snd] in Hall.
  repeat match type of Hall with
         | (?a || ?b)%bool = true =>
             apply orb_prop in Hall; destruct Hall as [Hall|Hall]
         end;
    try discriminate Hall;
    apply andb_prop in Hall; destruct Hall as [Hname Hkinds];
    apply String.eqb_eq in Hname; subst event;
    destruct args as [|a1 [|a2 [|a3 args]]]; try discriminate Hkinds;
    try (destruct a1; try discriminate Hkinds;
         try (destruct a2; try discriminate Hkinds));
    simpl; auto.
Qed.

(** ** A monitor as constructed *)

(** X12.  The first push of a monitor constructed without getters: with
    [include_latency] set (the default) it raises [ZeroDivisionError] and
    sends nothing, the window being empty; with [include_latency] unset it
    requests the URL of construction with [status] "up" and [msg] "OK" and
    nothing else, and ends as the transport does. *)
Theorem default_monitor_first_push (env : Env) (url : string) (interval0 : Q)
    (friendly_name : option string) (latency : bool)
    (w w1 : World) (m : KumaMonitor) :
  __init__ env url interval0 friendly_name None None latency w = (Ret m, w1) ->
  if latency
  then push env m w1 = (Raise ZeroDivisionError, m, w1)
  else let params := [("status", PStr "up"); ("msg", PStr "OK")] in
       fst (fst (push env m w1)) = http_get env (http_calls w1) url params
       /\ firstn 2 (skipn (length (trace w1)) (trace (snd (push env m w1))))
          = [LogDebug (PushingTo url params); HttpGet url params].
Proof.
  intros Hinit.
  assert (Hm : exists n,
             m = mkMonitor (mkAttrs n url interval0 latency None
                                    (Deque.empty 100) None)
                           _status_getter _msg_getter).
  { unfold __init__ in Hinit.
    destruct (match friendly_name with
              | Some n =>
                  if truthy friendly_name then Ret n
                  else match httpx_URL env url with
                       | Ret (netloc, path) => Ret (netloc ++ path)%string
                       | Raise e => Raise e
                       end
              | None => match httpx_URL env url with
                        | Ret (netloc, path) => Ret (netloc ++ path)%string
                        | Raise e => Raise e
                        end
              end) as [n|e]; inversion Hinit; subst. exists n. reflexivity. }
  destruct Hm as [n ->]. destruct latency.
  - apply push_zero_division; reflexivity.
  - unfold_push.
    destruct (http_get env (http_calls w1) url
                       [("status", PStr "up"); ("msg", PStr "OK")])
      as [resp|e].
    + destruct (status_code resp =? 200)%Z; simpl; added_events;
        split; reflexivity.
    + simpl. added_events. split; reflexivity.
Qed.

Lemma default_monitor_first_push_witness :
  __init__ steady_env "https://kuma.example/api/push/abc" 60 None None None
           false world0
  = (Ret (fresh false), mkWorld [AddEventListener "message"] 0 0 0 [])
  /\ fst (fst (push steady_env (fresh false)
                    (mkWorld [AddEventListener "message"] 0 0 0 [])))
     = Ret ok_response.
Proof.
  split; [reflexivity|].
  exact (proj1 (default_monitor_first_push steady_env
                  "https://kuma.example/api/push/abc" 60 None false world0
                  (mkWorld [AddEventListener "message"] 0 0 0 [])
                  (fresh false) eq_refl)).
Defined.

(** ** The push time along a run *)

Lemma not_before_refl (a : option Q) : not_before a a.
Proof. destruct a; simpl; [apply Qle_refl | exact I]. Qed.

Lemma not_before_trans (a b c : option Q) :
  not_before a b -> not_before b c -> not_before a c.
Proof.
  destruct a as [x|], b as [y|], c as [z|]; simpl; try tauto.
  apply Qle_trans.
Qed.

Lemma push_not_before (env : Env) (m : KumaMonitor) (w : World) :
  monotone_clock env ->
  clocked env m w ->
  let '(_, m', _) := push env m w in
  not_before (last_push (attrs m)) (last_push (attrs m')).
Proof.
  intros Hclock Hinv. pose proof (push_effect env m w) as Heff.
  destruct (push env m w) as [[o m'] w'].
  destruct Heff as [Hmon _].
  destruct o as [resp|e]; [destruct (status_code resp =? 200)%Z|];
    destruct Hmon as [-> _]; try apply not_before_refl.
  unfold clocked, last_push in *. simpl.
  destruct (_last_push (attrs m)) as [t|]; simpl; [|exact I].
  destruct Hinv as [i [Hi ->]]. apply Hclock. lia.
Qed.

Lemma iteration_not_before (env : Env) (m : KumaMonitor) (w : World) :
  monotone_clock env ->
  clocked env m w ->
  let '(_, m', _) := iteration env m w in
  not_before (last_push (attrs m)) (last_push (attrs m')).
Proof.
  intros Hclock Hinv. pose proof (iteration_cases env m w) as Hit.
  assert (Hinv' : clocked env m (announced m w)) by exact Hinv.
  pose proof (push_not_before env m (announced m w) Hclock Hinv') as Hpush.
  destruct (push env m (announced m w)) as [[o m'] w'].
  cbv zeta in Hit. rewrite Hit.
  destruct o as [resp|e]; [|destruct (is_Exception e)]; exact Hpush.
Qed.

Lemma main_loop_not_before (env : Env) (n : nat) :
  monotone_clock env ->
  forall (m : KumaMonitor) (w : World),
    clocked env m w ->
    let '(_, m', _) := main_loop env n m w in
    not_before (last_push (attrs m)) (last_push (attrs m')).
Proof.
  intros Hclock. induction n as [|n IH]; intros m w Hinv; simpl.
  - apply not_before_refl.
  - unfold bind.
    pose proof (iteration_not_before env m w Hclock Hinv) as Hit.
    pose proof (iteration_clocked env m w Hinv) as Hinv1.
    destruct (iteration env m w) as [[[u|e] m1] w1].
    + specialize (IH m1 w1 Hinv1).
      destruct (main_loop env n m1 w1) as [[o m'] w'].
      exact (not_before_trans _ _ _ Hit IH).
    + exact Hit.
Qed.

Lemma step_not_before (env : Env) (op : Op) (m : KumaMonitor) (w : World) :
  monotone_clock env ->
  clocked env m w ->
  let '(m', _) := step env op m w in
  not_before (last_push (attrs m)) (last_push (attrs m')).
Proof.
  intros Hclock Hinv. destruct op as [message| |n| |]; simpl.
  - unfold _message_listener, bind, lift, set_attrs.
    destruct (client_latency env message); apply not_before_refl.
  - pose proof (push_not_before env m w Hclock Hinv) as H.
    destruct (push env m w) as [[o m'] w']. exact H.
  - pose proof (main_loop_not_before env n Hclock m w Hinv) as H.
    destruct (main_loop env n m w) as [[o m'] w']. exact H.
  - apply not_before_refl.
  - unfold stop, bind, self. destruct (_task (attrs m)); apply not_before_refl.
Qed.

Lemma run_not_before (env : Env) (ops : list Op) :
  monotone_clock env ->
  forall (m : KumaMonitor) (w : World),
    clocked env m w ->
    let '(m', _) := run env ops m w in
    not_before (last_push (attrs m)) (last_push (attrs m')).
Proof.
  intros Hclock. induction ops as [|op ops IH]; intros m w Hinv; simpl.
  - apply not_before_refl.
  - pose proof (step_not_before env op m w Hclock Hinv) as Hstep.
    pose proof (step_clocked env op m w Hinv) as Hinv1.
    destruct (step env op m w) as [m1 w1]. specialize (IH m1 w1 Hinv1).
    destruct (run env ops m1 w1) as [m' w'].
    exact (not_before_trans _ _ _ Hstep IH).
Qed.

Lemma run_app (env : Env) (a b : list Op) (m : KumaMonitor) (w : World) :
  run env (a ++ b) m w
  = let '(m1, w1) := run env a m w in run env b m1 w1.
Proof.
  revert m w. induction a as [|op a IH]; intros m w; simpl.
  - reflexivity.
  - destruct (step env op m w) as [m1 w1]. apply IH.
Qed.

(** X13.  Under a clock that never goes back, the push time of a
    constructed monitor never goes back either: however a run is continued,
    by deliveries, pushes, loop iterations, starts or stops, [last_push]
    after the continuation is set if it was set before, and not earlier. *)
Theorem last_push_never_goes_back (env : Env) (before after : list Op)
    (m0 : KumaMonitor) (w0 : World) :
  monotone_clock env ->
  _last_push (attrs m0) = None ->
  not_before (last_push (attrs (fst (run env before m0 w0))))
             (last_push (attrs (fst (run env (before ++ after) m0 w0)))).
Proof.
  intros Hclock Hfresh.
  assert (Hinv : clocked env m0 w0) by (unfold clocked; now rewrite Hfresh).
  apply (run_clocked env before) in Hinv.
  rewrite run_app. destruct (run env before m0 w0) as [m w]. cbn [fst].
  pose proof (run_not_before env after Hclock m w Hinv) as H.
  destruct (run env after m w) as [m' w']. exact H.
Qed.

Lemma last_push_never_goes_back_witness :
  monotone_clock steady_env
  /\ _last_push (attrs (fresh false)) = None
  /\ not_before
       (last_push (attrs (fst (run steady_env [OpPush] (fresh false) world0))))
       (last_push (attrs (fst (run steady_env ([OpPush] ++ [OpStop; OpPush])
                                   (fresh false) world0)))).
Proof.
  split; [exact monotone_steady|]. split; [reflexivity|].
  exact (last_push_never_goes_back steady_env [OpPush] [OpStop; OpPush]
           (fresh false) world0 monotone_steady eq_refl).
Defined.

(** ** Requests and waits of the loop *)

Lemma push_counts (env : Env) (m : KumaMonitor) (w : World) :
  let '(_, _, w') := push env m w in
  (http_calls w <= http_calls w' <= S (http_calls w))%nat
  /\ sleeps w' = sleeps w.
Proof.
  pose proof (push_shape env m w) as Hshape.
  pose proof (push_effect env m w) as Heff.
  destruct (push env m w) as [[o m'] w'].
  destruct Heff as (_ & Hsleeps & _). split; [|exact Hsleeps].
  destruct Hshape as [(e & _ & _ & ->) | (status & msg & params & _ & _
                       & _ & _ & _ & _ & _ & Hcalls & _)]; lia.
Qed.

Lemma iteration_counts (env : Env) (m : KumaMonitor) (w : World) :
  let '(_, _, w') := iteration env m w in
  (http_calls w <= http_calls w' <= S (http_calls w))%nat
  /\ sleeps w' = S (sleeps w).
Proof.
  pose proof (iteration_cases env m w) as Hit.
  pose proof (push_counts env m (announced m w)) as Hpush.
  destruct (push env m (announced m w)) as [[o m'] w'].
  cbv zeta in Hit. rewrite Hit. simpl in Hpush. destruct Hpush as [Hc Hs].
  destruct o as [resp|e]; [|destruct (is_Exception e)]; simpl;
    (split; [exact Hc | rewrite Hs; reflexivity]).
Qed.

(** X14.  The first [n] iterations of the loop issue at most [n] requests
    and never more requests than they have started waits: every iteration
    makes at most one request, with no retry, and always calls its sleep,
    whatever the push did.  As long as the loop has not ended, the waits
    are exactly [n]. *)
Theorem loop_requests_and_sleeps (env : Env) (n : nat) :
  forall (m : KumaMonitor) (w : World),
    let '(o, _, w') := main_loop env n m w in
    (http_calls w <= http_calls w')%nat
    /\ (http_calls w' - http_calls w <= sleeps w' - sleeps w)%nat
    /\ (sleeps w <= sleeps w' <= sleeps w + n)%nat
    /\ (o = Ret tt -> sleeps w' = (sleeps w + n)%nat).
Proof.
  induction n as [|n IH]; intros m w; simpl.
  - repeat split; lia.
  - unfold bind. pose proof (iteration_counts env m w) as Hit.
    destruct (iteration env m w) as [[[u|e] m1] w1].
    + specialize (IH m1 w1). destruct (main_loop env n m1 w1) as [[o m'] w'].
      destruct Hit as [Hc Hs], IH as (K1 & K2 & K3 & K4).
      repeat split; try lia. intros Ho. specialize (K4 Ho). lia.
    + destruct Hit as [Hc Hs]. repeat split; try lia. intros H. discriminate H.
Qed.
